(** * Al-Shifa dental front-end: LocationPicker, DoctorLogin, DoctorSignup

    A shallow embedding of the three interactive components of the
    repository (the location picker widget, the doctor login page and the
    doctor signup page) and the properties their specification states,
    followed by the navigation of the admin and organization layouts and
    further properties read off the code.

    React components are modelled as state machines: the [useState] cells
    of a component form a record, every event handler is a function on
    that record, and what a handler does to the outside (the [onChange]
    callback, [localStorage], the router, the API client, the console) is
    recorded in explicit fields of a world record.  An [async] handler is
    split at its single [await]: the part that runs when the form is
    submitted, and the continuation that runs when the promise settles.

    JavaScript strings are modelled by [string]; one character of the
    model stands for one code unit (code units below 256). *)

From Stdlib Require Import ZArith Ascii String DecimalString DecimalNat.
From stdpp Require Import gmap strings list.

Local Open Scope string_scope.
Local Open Scope list_scope.

(** ** The fragment of JavaScript the components rely on *)

Module JS.

(** A value read from an object property that holds a string when it is
    present: [None] is [undefined]. *)
Definition truthy (v : option string) : bool :=
  match v with
  | None => false
  | Some s => negb (String.eqb s "")
  end.

(** [a || b] on such values. *)
Definition or_else (v : option string) (d : string) : string :=
  if truthy v then default d v else d.

(** Interpolation of a value in a template literal. *)
Definition to_str (v : option string) : string := default "undefined" v.

(** Numbers: the integral doubles, [NaN] and the infinities.  The sign of
    zero is not kept. *)
Inductive Number : Type :=
| NaN
| Num (z : Z)
| Infinity (negative : bool).

Global Instance Number_eq_dec : EqDecision Number.
Proof. solve_decision. Defined.

(** The double nearest to an integer (ties to even), the conversion ECMAScript
    applies to a parsed integer: exact below [2^53], 53 significant bits above. *)
Definition to_double (z : Z) : Number :=
  let a := Z.abs z in
  if (a <? 2 ^ 53)%Z then Num z
  else
    let k := (Z.log2 a - 52)%Z in
    let q := Z.shiftr a k in
    let r := (a - Z.shiftl q k)%Z in
    let half := (2 ^ (k - 1))%Z in
    let q' := if ((r <? half) || ((r =? half) && Z.even q))%Z
              then q else (q + 1)%Z in
    let m := Z.shiftl q' k in
    if (2 ^ 1024 <=? m)%Z then Infinity (z <? 0)%Z
    else Num (Z.sgn z * m)%Z.

(** [StrWhiteSpaceChar] among the code units below 256: TAB, LF, VT, FF,
    CR, SP and NBSP. *)
Definition is_white_space (c : ascii) : bool :=
  let n := nat_of_ascii c in
  (Nat.leb 9 n && Nat.leb n 13) || Nat.eqb n 32 || Nat.eqb n 160.

Fixpoint trim_start (s : string) : string :=
  match s with
  | String c s' => if is_white_space c then trim_start s' else s
  | EmptyString => s
  end.

(** The value of a character as a digit, in any radix up to 36. *)
Definition digit_value (c : ascii) : option Z :=
  let n := Z.of_nat (nat_of_ascii c) in
  if ((48 <=? n) && (n <=? 57))%Z then Some (n - 48)%Z
  else if ((97 <=? n) && (n <=? 122))%Z then Some (n - 87)%Z
  else if ((65 <=? n) && (n <=? 90))%Z then Some (n - 55)%Z
  else None.

(** The longest prefix of [s] made of digits of radix [R], read as a
    number on top of the accumulator [acc]; [seen] tells whether a digit
    was read. *)
Fixpoint parse_digits (R : Z) (s : string) (seen : bool) (acc : Z)
  : bool * Z :=
  match s with
  | String c s' =>
      match digit_value c with
      | Some d =>
          if (d <? R)%Z then parse_digits R s' true (R * acc + d)%Z
          else (seen, acc)
      | None => (seen, acc)
      end
  | EmptyString => (seen, acc)
  end.

(** [parseInt(string)] with the radix left out: white space is skipped, a
    sign is read, a [0x] or [0X] prefix selects radix 16 and radix 10 is
    used otherwise; the digits that follow are read up to the first
    character that is not one, and [NaN] is returned when there is
    none. *)
Definition parseInt (input : string) : Number :=
  let s := trim_start input in
  let '(sign, s) :=
    match s with
    | String "-" s' => ((-1)%Z, s')
    | String "+" s' => (1%Z, s')
    | _ => (1%Z, s)
    end in
  let '(R, s) :=
    match s with
    | String "0" (String "x" s') => (16%Z, s')
    | String "0" (String "X" s') => (16%Z, s')
    | _ => (10%Z, s)
    end in
  match parse_digits R s false 0%Z with
  | (false, _) => NaN
  | (true, mathInt) => to_double (sign * mathInt)%Z
  end.

(** [String(n)] for a natural number below [10^21]: its decimal
    numeral. *)
Definition nat_to_string (n : nat) : string :=
  NilEmpty.string_of_uint (Nat.to_uint n).

(** [String(z)] for an integer of magnitude below [10^21]. *)
Definition Z_to_string (z : Z) : string :=
  if (z <? 0)%Z then "-" +:+ nat_to_string (Z.abs_nat z)
  else nat_to_string (Z.to_nat z).

End JS.

(** ** LocationPicker *)

Module LocationPicker.

(** [type LocationData = { address; pincode; lat?; lng? }].  The two
    coordinates are never read or written by the component. *)
Record LocationData : Type := mkLocationData {
  address : string;
  pincode : string;
  lat : option JS.Number;
  lng : option JS.Number
}.

(** [Partial<LocationData>]: every property may be missing. *)
Record PartialLocationData : Type := mkPartial {
  p_address : option string;
  p_pincode : option string;
  p_lat : option JS.Number;
  p_lng : option JS.Number
}.

(** The [initialData] prop; the [onChange] prop is the callback whose
    calls the world records. *)
Record Props : Type := mkProps {
  initialData : option PartialLocationData
}.

(** The two [useState] cells. *)
Record State : Type := mkState {
  st_address : string;
  st_pincode : string
}.

(** The component together with the calls it has made to [onChange],
    oldest first. *)
Record World : Type := mkWorld {
  state : State;
  emitted : list LocationData
}.

(** [useState(initialData?.address || "")] and
    [useState(initialData?.pincode || "")]. *)
Definition init_state (p : Props) : State :=
  {| st_address := JS.or_else (initialData p ≫= p_address) "";
     st_pincode := JS.or_else (initialData p ≫= p_pincode) "" |}.

Definition mount (p : Props) : World :=
  {| state := init_state p; emitted := [] |}.

Definition onChange (loc : LocationData) (w : World) : World :=
  {| state := state w; emitted := emitted w ++ [loc] |}.

Definition setAddress (v : string) (w : World) : World :=
  {| state := {| st_address := v; st_pincode := st_pincode (state w) |};
     emitted := emitted w |}.

Definition setPincode (v : string) (w : World) : World :=
  {| state := {| st_address := st_address (state w); st_pincode := v |};
     emitted := emitted w |}.

(** [const emit = () => onChange({ address, pincode })]. *)
Definition emit (w : World) : World :=
  onChange {| address := st_address (state w);
              pincode := st_pincode (state w);
              lat := None; lng := None |} w.

Definition detected_address : string := "123 Detected St, Tech Park".
Definition detected_pincode : string := "500081".

Definition handleDetectLocation (w : World) : World :=
  onChange {| address := detected_address; pincode := detected_pincode;
              lat := None; lng := None |}
    (setPincode detected_pincode (setAddress detected_address w)).

(** One keystroke in a text field: a character typed at the caret, or
    the character before the caret erased. *)
Inductive Key : Type :=
| KeyChar (c : ascii)
| KeyBackspace.

Record Keystroke : Type := mkKeystroke {
  caret : nat;
  key : Key
}.

Definition insert_at (i : nat) (c : ascii) (s : string) : string :=
  String.substring 0 i s +:+ String c (String.substring i (String.length s - i) s).

Definition erase_before (i : nat) (s : string) : string :=
  String.substring 0 (i - 1) s +:+ String.substring i (String.length s - i) s.

(** Modelled from the spec: the [Input] component of
    [@/components/ui/input] and the text field of the browser behind it
    are not among the sources.  The spec says that the "pincode field is
    capped at 6 characters": a field rendered with [maxLength] takes a
    typed character only while its value is shorter than the cap; it
    always lets the user erase.  The result is the new value of the
    field, or [None] when the keystroke changes nothing and no change
    event is sent. *)
Definition input_keystroke (maxLength : option nat) (value : string)
    (k : Keystroke) : option string :=
  let i := Nat.min (caret k) (String.length value) in
  match key k with
  | KeyChar c =>
      match maxLength with
      | Some n =>
          if Nat.ltb (String.length value) n
          then Some (insert_at i c value) else None
      | None => Some (insert_at i c value)
      end
  | KeyBackspace =>
      if Nat.eqb i 0 then None else Some (erase_before i value)
  end.

(** The [maxLength] attributes of the two fields, as rendered. *)
Definition address_maxLength : option nat := None.
Definition pincode_maxLength : option nat := Some 6.

(** What the user can do with the rendered widget. *)
Inductive Event : Type :=
| TypeAddress (k : Keystroke)
| TypePincode (k : Keystroke)
| BlurAddress
| BlurPincode
| ClickDetect.

(** The handler each event runs:
    [onChange={(e) => setAddress(e.target.value)}],
    [onChange={(e) => setPincode(e.target.value)}], [onBlur={emit}] on
    both fields and [onClick={handleDetectLocation}]. *)
Definition handle (e : Event) (w : World) : World :=
  match e with
  | TypeAddress k =>
      match input_keystroke address_maxLength (st_address (state w)) k with
      | Some v => setAddress v w
      | None => w
      end
  | TypePincode k =>
      match input_keystroke pincode_maxLength (st_pincode (state w)) k with
      | Some v => setPincode v w
      | None => w
      end
  | BlurAddress => emit w
  | BlurPincode => emit w
  | ClickDetect => handleDetectLocation w
  end.

Definition run (es : list Event) (w : World) : World :=
  foldl (fun w e => handle e w) w es.

Definition is_blur (e : Event) : bool :=
  match e with
  | BlurAddress | BlurPincode => true
  | _ => false
  end.

End LocationPicker.

(** ** Event handlers as effectful programs

    The body of a handler is a sequence of statements over the world of
    its component.  A statement completes normally, by [return], or by a
    thrown exception; [try]/[catch]/[finally] and the sequencing of
    statements act on these completions as they do in JavaScript. *)

Module Eff.

Inductive Completion (E A : Type) : Type :=
| Normal (a : A)
| Returned
| Thrown (e : E).
Arguments Normal {E A} a.
Arguments Returned {E A}.
Arguments Thrown {E A} e.

Definition M (W E A : Type) : Type := W -> Completion E A * W.

Section Ops.
Context {W E : Type}.

Definition ret {A} (a : A) : M W E A := fun w => (Normal a, w).

Definition bind {A B} (m : M W E A) (k : A -> M W E B) : M W E B :=
  fun w =>
    match m w with
    | (Normal a, w') => k a w'
    | (Returned, w') => (Returned, w')
    | (Thrown e, w') => (Thrown e, w')
    end.

(** [return;] *)
Definition return_ {A} : M W E A := fun w => (Returned, w).

(** [throw e;] *)
Definition throw {A} (e : E) : M W E A := fun w => (Thrown e, w).

Definition gets {A} (f : W -> A) : M W E A := fun w => (Normal (f w), w).

Definition modify (f : W -> W) : M W E unit := fun w => (Normal tt, f w).

Definition skip : M W E unit := ret tt.

(** [try { body } catch (err) { handler }] *)
Definition try_catch (body : M W E unit) (handler : E -> M W E unit)
  : M W E unit :=
  fun w =>
    match body w with
    | (Thrown e, w') => handler e w'
    | r => r
    end.

(** [try { body } finally { fin }]: [fin] runs however [body]
    completes, and the completion of [body] stands unless [fin]
    itself completes abruptly. *)
Definition try_finally (body : M W E unit) (fin : M W E unit)
  : M W E unit :=
  fun w =>
    let '(c, w') := body w in
    match fin w' with
    | (Normal _, w'') => (c, w'')
    | r => r
    end.

(** Running a handler on a world: React drops its completion. *)
Definition exec (body : M W E unit) (w : W) : W := (body w).2.

End Ops.

(** Sequencing is written with the monad notations [x ← m; k] and
    [m;; k]. *)
Global Instance M_ret {W E} : MRet (M W E) := fun A => ret.
Global Instance M_bind {W E} : MBind (M W E) := fun A B k m => bind m k.

End Eff.

(** ** DoctorLogin *)

Module DoctorLogin.
Import Eff.

(** Modelled from the spec: [AuthAPI.login] of [@/lib/api] is not among
    the sources.  The spec gives the data of a successful answer,
    "AuthSession (client-side only): { access_token: string, role:
    string }", read by the handler as [response.data]. *)
Record AuthSession : Type := mkAuthSession {
  access_token : string;
  role : string
}.

(** How the promise returned by [AuthAPI.login] settles.  The handler
    only logs the reason of a rejection. *)
Inductive Settled : Type :=
| Fulfilled (data : AuthSession)
| Rejected.

(** The four [useState] cells. *)
Record State : Type := mkState {
  email : string;
  password : string;
  loading : bool;
  error : string
}.

(** What the page does to the outside. *)
Inductive Effect : Type :=
| LoginCall (e p : string)      (* AuthAPI.login(e, p) *)
| SetItem (k v : string)        (* localStorage.setItem(k, v) *)
| Push (path : string)          (* router.push(path) *)
| ConsoleError.                 (* console.error(err) *)

(** The page and what it acts on: browser local storage, the router
    (the paths pushed, latest first), the calls to [AuthAPI.login] that
    have not settled yet (oldest first, with their arguments), and the
    effects performed so far, in order (oldest first). *)
Record World : Type := mkWorld {
  state : State;
  localStorage : gmap string string;
  history : list string;
  in_flight : list (string * string);
  effects : list Effect
}.

Definition initial_state : State :=
  {| email := ""; password := ""; loading := false; error := "" |}.

Definition mount (storage : gmap string string) (hist : list string) : World :=
  {| state := initial_state; localStorage := storage; history := hist;
     in_flight := []; effects := [] |}.

Definition with_state (f : State -> State) (w : World) : World :=
  {| state := f (state w); localStorage := localStorage w;
     history := history w; in_flight := in_flight w; effects := effects w |}.

Definition setEmail (v : string) : M World unit unit :=
  modify (with_state (fun s =>
    {| email := v; password := password s; loading := loading s; error := error s |})).

Definition setPassword (v : string) : M World unit unit :=
  modify (with_state (fun s =>
    {| email := email s; password := v; loading := loading s; error := error s |})).

Definition setLoading (b : bool) : M World unit unit :=
  modify (with_state (fun s =>
    {| email := email s; password := password s; loading := b; error := error s |})).

Definition setError (m : string) : M World unit unit :=
  modify (with_state (fun s =>
    {| email := email s; password := password s; loading := loading s; error := m |})).

(** [localStorage.setItem(key, value)] *)
Definition localStorage_setItem (k v : string) : M World unit unit :=
  modify (fun w =>
    {| state := state w; localStorage := <[k := v]> (localStorage w);
       history := history w; in_flight := in_flight w;
       effects := effects w ++ [SetItem k v] |}).

(** [router.push(path)] *)
Definition router_push (path : string) : M World unit unit :=
  modify (fun w =>
    {| state := state w; localStorage := localStorage w;
       history := path :: history w; in_flight := in_flight w;
       effects := effects w ++ [Push path] |}).

(** [console.error(err)] *)
Definition console_error : M World unit unit :=
  modify (fun w =>
    {| state := state w; localStorage := localStorage w;
       history := history w; in_flight := in_flight w;
       effects := effects w ++ [ConsoleError] |}).

(** [AuthAPI.login(email, password)]: the call is sent and its promise is
    pending. *)
Definition AuthAPI_login (e p : string) : M World unit unit :=
  modify (fun w =>
    {| state := state w; localStorage := localStorage w;
       history := history w; in_flight := in_flight w ++ [(e, p)];
       effects := effects w ++ [LoginCall e p] |}).

(** The oldest pending call leaves the list when its promise settles. *)
Definition settle_oldest (w : World) : World :=
  {| state := state w; localStorage := localStorage w;
     history := history w; in_flight := tail (in_flight w);
     effects := effects w |}.

(** [await promise] once the promise has settled. *)
Definition await (r : Settled) : M World unit AuthSession :=
  match r with
  | Fulfilled data => ret data
  | Rejected => throw tt
  end.

Definition access_denied : string :=
  "Access Denied: This portal is for Doctors only.".
Definition invalid_credentials : string :=
  "Invalid credentials or server error.".

(** [handleLogin] up to its [await]: the two state updates and the call
    to the API. *)
Definition handleLogin_submit : M World unit unit :=
  setLoading true;;
  setError "";;
  e ← gets (fun w => email (state w));
  p ← gets (fun w => password (state w));
  AuthAPI_login e p.

(** [handleLogin] from its [await] on: the rest of the [try] block, the
    [catch] block and the [finally] block. *)
Definition handleLogin_resume (r : Settled) : M World unit unit :=
  try_finally
    (try_catch
       (data ← await r;
        (if negb (String.eqb (role data) "doctor")
         then setError access_denied;; return_
         else skip);;
        localStorage_setItem "token" (access_token data);;
        localStorage_setItem "role" (role data);;
        router_push "/doctor/dashboard")
       (fun _ => console_error;; setError invalid_credentials))
    (setLoading false).

(** [<Button ... disabled={loading}>]: the submit button of the form. *)
Definition submit_disabled (s : State) : bool := loading s.

(** What can happen to one mounted instance of the page: the user edits
    a field or submits the form, or the oldest pending call settles.  The
    form is submitted through its only button ([Button] of
    [@/components/ui/button], rendered with [disabled={loading}]), and a
    form whose submit button is disabled is not submitted. *)
Inductive Event : Type :=
| ChangeEmail (v : string)
| ChangePassword (v : string)
| Submit
| Settle (r : Settled).

Inductive step : World -> Event -> World -> Prop :=
| step_email w v :
    step w (ChangeEmail v) (exec (setEmail v) w)
| step_password w v :
    step w (ChangePassword v) (exec (setPassword v) w)
| step_submit w :
    submit_disabled (state w) = false ->
    step w Submit (exec handleLogin_submit w)
| step_settle w r :
    in_flight w <> [] ->
    step w (Settle r) (exec (handleLogin_resume r) (settle_oldest w)).

Inductive reachable (w0 : World) : World -> Prop :=
| reachable_mount : reachable w0 w0
| reachable_step w e w' : reachable w0 w -> step w e w' -> reachable w0 w'.

(** A whole submission: the form is submitted and its call settles. *)
Definition handleLogin (r : Settled) (w : World) : World :=
  exec (handleLogin_resume r) (settle_oldest (exec handleLogin_submit w)).

(** The page has a call pending exactly when loading is true, and then
    it has one. *)
Definition gate (w : World) : Prop :=
  (loading (state w) = false /\ in_flight w = [])
  \/ (loading (state w) = true /\ exists c, in_flight w = [c]).

End DoctorLogin.

(** ** DoctorSignup *)

Module DoctorSignup.
Import Eff.

(** Modelled from the spec: the client [api] of [@/lib/api] is not among
    the sources; the spec only says that failures of "the single network
    call per form" are "reduced to one user-visible string".  The
    handler reads [err.response] and [err.response.data.detail] of the
    reason of a rejection: [response] is missing when no answer came,
    and [detail] is the message of the server when it sent one. *)
Record ErrorResponse : Type := mkErrorResponse {
  detail : option string
}.

Record ApiError : Type := mkApiError {
  response : option ErrorResponse
}.

(** How the promise returned by [api.post] settles. *)
Inductive Settled : Type :=
| Fulfilled
| Rejected (err : ApiError).

(** [scheduling_config] of the payload; [None] in a duration is
    [null]. *)
Record SchedulingConfig : Type := mkSchedulingConfig {
  mode : option string;
  work_duration : option JS.Number;
  break_duration : option JS.Number
}.

(** The object literal posted to [/register].  A property copied from
    [formData] is [None] when [formData] has no such property. *)
Record Payload : Type := mkPayload {
  pl_email : option string;
  pl_password : option string;
  full_name : string;
  role : string;
  hospital_name : option string;
  specialization : option string;
  license_number : option string;
  scheduling_config : SchedulingConfig;
  kyc_document_name : string
}.

(** The five [useState] cells.  [formData] is an object whose
    properties are set by name, hence a finite map from property names
    to strings; [fileName] is [null] until a file is chosen. *)
Record State : Type := mkState {
  loading : bool;
  error : string;
  fileName : option string;
  isCustomHospital : bool;
  formData : gmap string string
}.

(** The page and what it acts on: the router (the paths pushed, latest
    first), the calls to [api.post] that have not settled yet (oldest
    first, with their URL and payload) and the reasons logged with
    [console.error]. *)
Record World : Type := mkWorld {
  state : State;
  history : list string;
  in_flight : list (string * Payload);
  console : list ApiError
}.

Definition initial_formData : gmap string string :=
  list_to_map
    [ ("firstName", ""); ("lastName", ""); ("email", ""); ("password", "");
      ("hospital_name", ""); ("hospital_select", "");
      ("license_number", ""); ("specialization", "General Dentist");
      ("scheduleMode", "continuous"); ("workMinutes", "");
      ("breakMinutes", "") ].

Definition initial_state : State :=
  {| loading := false; error := ""; fileName := None;
     isCustomHospital := false; formData := initial_formData |}.

Definition mount (hist : list string) : World :=
  {| state := initial_state; history := hist; in_flight := [];
     console := [] |}.

Definition with_state (f : State -> State) (w : World) : World :=
  {| state := f (state w); history := history w;
     in_flight := in_flight w; console := console w |}.

Definition setLoading (b : bool) : M World ApiError unit :=
  modify (with_state (fun s =>
    {| loading := b; error := error s; fileName := fileName s;
       isCustomHospital := isCustomHospital s; formData := formData s |})).

Definition setError (m : string) : M World ApiError unit :=
  modify (with_state (fun s =>
    {| loading := loading s; error := m; fileName := fileName s;
       isCustomHospital := isCustomHospital s; formData := formData s |})).

Definition setFileName (n : string) : M World ApiError unit :=
  modify (with_state (fun s =>
    {| loading := loading s; error := error s; fileName := Some n;
       isCustomHospital := isCustomHospital s; formData := formData s |})).

Definition setIsCustomHospital (b : bool) : M World ApiError unit :=
  modify (with_state (fun s =>
    {| loading := loading s; error := error s; fileName := fileName s;
       isCustomHospital := b; formData := formData s |})).

(** [setFormData(prev => f(prev))] *)
Definition setFormData (f : gmap string string -> gmap string string)
  : M World ApiError unit :=
  modify (with_state (fun s =>
    {| loading := loading s; error := error s; fileName := fileName s;
       isCustomHospital := isCustomHospital s;
       formData := f (formData s) |})).

(** [router.push(path)] *)
Definition router_push (path : string) : M World ApiError unit :=
  modify (fun w =>
    {| state := state w; history := path :: history w;
       in_flight := in_flight w; console := console w |}).

(** [console.error(err)] *)
Definition console_error (err : ApiError) : M World ApiError unit :=
  modify (fun w =>
    {| state := state w; history := history w;
       in_flight := in_flight w; console := console w ++ [err] |}).

(** [api.post(url, payload)]: the call is sent and its promise is
    pending. *)
Definition api_post (url : string) (p : Payload) : M World ApiError unit :=
  modify (fun w =>
    {| state := state w; history := history w;
       in_flight := in_flight w ++ [(url, p)]; console := console w |}).

(** The oldest pending call leaves the list when its promise settles. *)
Definition settle_oldest (w : World) : World :=
  {| state := state w; history := history w;
     in_flight := tail (in_flight w); console := console w |}.

(** [await promise] once the promise has settled. *)
Definition await (r : Settled) : M World ApiError unit :=
  match r with
  | Fulfilled => ret tt
  | Rejected err => throw err
  end.

(** [handleChange]: [{ ...prev, [name]: value }] with the name and the
    value of the field that changed. *)
Definition handleChange (name value : string) : M World ApiError unit :=
  setFormData (fun prev => <[name := value]> prev).

(** [handleFileChange]: [files] is [e.target.files], a list of file
    names or [null]. *)
Definition handleFileChange (files : option (list string))
  : M World ApiError unit :=
  match files ≫= head with
  | Some name => setFileName name
  | None => skip
  end.

(** [toggleHospitalMode] *)
Definition toggleHospitalMode : M World ApiError unit :=
  custom ← gets (fun w => isCustomHospital (state w));
  setIsCustomHospital (negb custom);;
  setFormData (fun prev =>
    <["hospital_select" := ""]> (<["hospital_name" := ""]> prev)).

Definition hospital_required : string :=
  "Please select or enter a valid hospital name.".
Definition durations_required : string :=
  "Please define both work and break durations for interleaved schedules.".
Definition registration_failed : string :=
  "Registration failed. Please check your details.".
Definition network_error : string :=
  "Network error. Server unavailable.".

(** [const finalHospital = isCustomHospital ? formData.hospital_name :
    formData.hospital_select] *)
Definition finalHospital (s : State) : option string :=
  if isCustomHospital s then formData s !! "hospital_name"
  else formData s !! "hospital_select".

(** [formData.scheduleMode === "interleaved" && (!formData.workMinutes
    || !formData.breakMinutes)] *)
Definition durations_missing (s : State) : bool :=
  bool_decide (formData s !! "scheduleMode" = Some "interleaved")
  && (negb (JS.truthy (formData s !! "workMinutes"))
      || negb (JS.truthy (formData s !! "breakMinutes"))).

(** [field ? parseInt(field) : null] *)
Definition duration (field : option string) : option JS.Number :=
  if JS.truthy field then Some (JS.parseInt (default "" field)) else None.

(** The payload built in the [try] block. *)
Definition build_payload (s : State) : Payload :=
  let fd := formData s in
  {| pl_email := fd !! "email";
     pl_password := fd !! "password";
     full_name := JS.to_str (fd !! "firstName") +:+ " "
                  +:+ JS.to_str (fd !! "lastName");
     role := "doctor";
     hospital_name := finalHospital s;
     specialization := fd !! "specialization";
     license_number := fd !! "license_number";
     scheduling_config :=
       {| mode := fd !! "scheduleMode";
          work_duration := duration (fd !! "workMinutes");
          break_duration := duration (fd !! "breakMinutes") |};
     kyc_document_name := JS.or_else (fileName s) "pending_upload" |}.

(** [handleRegister] up to its [await]: the state updates, the two
    checks with their early returns, and the call to the API. *)
Definition handleRegister_submit : M World ApiError unit :=
  setLoading true;;
  setError "";;
  s ← gets state;
  (if negb (JS.truthy (finalHospital s))
   then setError hospital_required;; setLoading false;; return_
   else skip);;
  (if durations_missing s
   then setError durations_required;; setLoading false;; return_
   else skip);;
  api_post "/register" (build_payload s).

(** [handleRegister] from its [await] on: the rest of the [try] block,
    the [catch] block and the [finally] block. *)
Definition handleRegister_resume (r : Settled) : M World ApiError unit :=
  try_finally
    (try_catch
       (await r;;
        router_push "/auth/doctor/login")
       (fun err =>
          console_error err;;
          match response err with
          | Some resp => setError (JS.or_else (detail resp) registration_failed)
          | None => setError network_error
          end))
    (setLoading false).

(** [<Button ... disabled={loading}>]: the submit button of the form. *)
Definition submit_disabled (s : State) : bool := loading s.

(** The [name] attributes of the fields that are rendered and call
    [handleChange]: the hospital field is the dropdown or the text
    input, and the break duration only shows in interleaved mode. *)
Definition rendered_names (s : State) : list string :=
  ["firstName"; "lastName"; "email"; "password"]
  ++ (if isCustomHospital s then ["hospital_name"] else ["hospital_select"])
  ++ ["license_number"; "scheduleMode"; "workMinutes"]
  ++ (if bool_decide (formData s !! "scheduleMode" = Some "interleaved")
      then ["breakMinutes"] else []).

Inductive Event : Type :=
| Change (name value : string)
| FileChange (files : option (list string))
| ToggleHospital
| Submit
| Settle (r : Settled).

(** An event of one mounted instance of the page can happen when its
    control is rendered and active (a form whose submit button is
    disabled is not submitted); a call can settle when one is pending. *)
Definition enabled (e : Event) (w : World) : bool :=
  match e with
  | Change name _ => bool_decide (name ∈ rendered_names (state w))
  | FileChange _ => true
  | ToggleHospital => true
  | Submit => negb (submit_disabled (state w))
  | Settle _ => negb (bool_decide (in_flight w = []))
  end.

Definition handle (e : Event) (w : World) : World :=
  match e with
  | Change name value => exec (handleChange name value) w
  | FileChange files => exec (handleFileChange files) w
  | ToggleHospital => exec toggleHospitalMode w
  | Submit => exec handleRegister_submit w
  | Settle r => exec (handleRegister_resume r) (settle_oldest w)
  end.

Inductive reachable (w0 : World) : World -> Prop :=
| reachable_mount : reachable w0 w0
| reachable_step w e :
    reachable w0 w -> enabled e w = true -> reachable w0 (handle e w).

(** Runs the events that are enabled, in order, and skips the others. *)
Definition run (es : list Event) (w : World) : World :=
  foldl (fun w e => if enabled e w then handle e w else w) w es.

(** The form passes the two checks of [handleRegister]. *)
Definition passes_validation (s : State) : bool :=
  JS.truthy (finalHospital s) && negb (durations_missing s).

(** What "forwarded verbatim" asks of a duration of the payload, read
    with lenience on the type: for a field that holds text, the number
    sent is an integer that prints back as that very text; for an empty
    field, [null] is sent. *)
Definition forwarded_verbatim (field : option string)
    (sent : option JS.Number) : Prop :=
  match field, sent with
  | Some s, None => s = ""
  | Some s, Some (JS.Num z) => s = JS.Z_to_string z
  | _, _ => False
  end.

(** The state [handleRegister] leaves when it stops or suspends:
    [loading] and [error] are set, the other cells are kept. *)
Definition after_submit (loading' : bool) (error' : string) (s : State) : State :=
  {| loading := loading'; error := error'; fileName := fileName s;
     isCustomHospital := isCustomHospital s; formData := formData s |}.

(** The conversion [handleRegister] applies to a duration field:
    [null] for an empty field, [parseInt] of its text otherwise, which
    is the number [n] when the text is the decimal numeral of a natural
    number [n] below [2^53]. *)
Definition converted (field : option string) (sent : option JS.Number) : Prop :=
  (field = Some "" -> sent = None)
  /\ (forall s, field = Some s -> s <> "" -> sent = Some (JS.parseInt s))
  /\ (forall n : nat, (Z.of_nat n < 2 ^ 53)%Z ->
                      field = Some (JS.nat_to_string n) ->
                      sent = Some (JS.Num (Z.of_nat n))).

(** The field of the mode that is not shown is empty. *)
Definition hidden_hospital_empty (s : State) : Prop :=
  if isCustomHospital s
  then formData s !! "hospital_select" = Some ""
  else formData s !! "hospital_name" = Some "".

(** The page has a call pending exactly when loading is true, and then
    it has one. *)
Definition gate (w : World) : Prop :=
  (loading (state w) = false /\ in_flight w = [])
  \/ (loading (state w) = true /\ exists c, in_flight w = [c]).

End DoctorSignup.

(** ** AdminLayout and OrganizationLayout *)

Module Layouts.

(** The icon components of [lucide-react] the two tables refer to. *)
Inductive Icon : Type :=
| LayoutDashboard | Stethoscope | Building2 | FileText
| Users | UserCog | Building.

Record NavItem : Type := mkNavItem {
  label : string;
  href : string;
  icon : Icon
}.

(** [NAV_ITEMS] of the admin layout. *)
Definition NAV_ITEMS : list NavItem :=
  [ {| label := "Dashboard"; href := "/admin/dashboard"; icon := LayoutDashboard |};
    {| label := "Doctor Queue"; href := "/admin/doctors"; icon := Stethoscope |};
    {| label := "Hospital Queue"; href := "/admin/organizations"; icon := Building2 |};
    {| label := "Audit Logs"; href := "/admin/audit"; icon := FileText |} ].

(** [ORG_NAV] of the organization layout. *)
Definition ORG_NAV : list NavItem :=
  [ {| label := "Dashboard"; href := "/organization/dashboard"; icon := LayoutDashboard |};
    {| label := "My Profile"; href := "/organization/profile"; icon := Building |};
    {| label := "Doctors & Staff"; href := "/organization/doctors"; icon := Users |};
    {| label := "Appointments"; href := "/organization/appointments"; icon := UserCog |} ].

(** A rendered [<Link key href className> <item.icon className/> label
    </Link>]. *)
Record NavLink : Type := mkNavLink {
  key : string;
  link_href : string;
  className : string;
  link_icon : Icon;
  icon_className : string;
  text : string
}.

Definition admin_link_base : string :=
  "flex items-center gap-3 px-4 py-3 rounded-lg text-sm font-medium transition-all ".
Definition admin_link_active : string :=
  "bg-blue-600 text-white shadow-lg shadow-blue-900/20".
Definition admin_link_inactive : string :=
  "hover:bg-slate-800 hover:text-white".

(** The callback of [NAV_ITEMS.map] in [AdminLayout], with
    [const isActive = pathname === item.href]. *)
Definition admin_link (pathname : string) (item : NavItem) : NavLink :=
  let isActive := String.eqb pathname (href item) in
  {| key := href item;
     link_href := href item;
     className := admin_link_base
                  +:+ (if isActive then admin_link_active
                       else admin_link_inactive);
     link_icon := icon item;
     icon_className := "h-5 w-5";
     text := label item |}.

(** The [<nav>] of [AdminLayout] for the path [usePathname()] returns. *)
Definition AdminLayout_nav (pathname : string) : list NavLink :=
  map (admin_link pathname) NAV_ITEMS.

Definition org_link_base : string :=
  "flex items-center gap-3 px-3 py-2.5 rounded-lg text-sm font-medium transition-colors ".
Definition org_link_active : string := "bg-blue-50 text-blue-700".
Definition org_link_inactive : string :=
  "text-gray-600 hover:bg-gray-50 hover:text-gray-900".

(** The callback of [ORG_NAV.map] in [OrganizationLayout]. *)
Definition org_link (pathname : string) (item : NavItem) : NavLink :=
  let isActive := String.eqb pathname (href item) in
  {| key := href item;
     link_href := href item;
     className := org_link_base
                  +:+ (if isActive then org_link_active
                       else org_link_inactive);
     link_icon := icon item;
     icon_className := "h-4 w-4 "
                       +:+ (if isActive then "text-blue-600"
                            else "text-gray-400");
     text := label item |}.

Definition OrganizationLayout_nav (pathname : string) : list NavLink :=
  map (org_link pathname) ORG_NAV.

(** The [useState] cell of [OrganizationLayout]:
    [const [isSidebarOpen, setSidebarOpen] = useState(true)]. *)
Definition sidebar_initial : bool := true.

(** [onClick={() => setSidebarOpen(!isSidebarOpen)}] of the mobile
    toggle. *)
Definition toggle_sidebar (isSidebarOpen : bool) : bool := negb isSidebarOpen.

(** The icon of the toggle: [isSidebarOpen ? <X/> : <Menu/>]. *)
Inductive ToggleIcon : Type := IconX | IconMenu.

Definition toggle_icon (isSidebarOpen : bool) : ToggleIcon :=
  if isSidebarOpen then IconX else IconMenu.

(** The part of the class of the [<aside>] that depends on the cell:
    [isSidebarOpen ? "translate-x-0" : "-translate-x-full
    lg:translate-x-0"]. *)
Definition sidebar_transform (isSidebarOpen : bool) : string :=
  if isSidebarOpen then "translate-x-0"
  else "-translate-x-full lg:translate-x-0".

(** The cell after the toggle was clicked [n] times. *)
Definition sidebar_after (n : nat) : bool :=
  Nat.iter n toggle_sidebar sidebar_initial.

End Layouts.

(** ** Readings of the three components used by the properties below *)

Module Readings.

(** The events of the location picker whose handler calls [onChange]:
    the two [onBlur] and the click on the detect button. *)
Definition calls_onChange (e : LocationPicker.Event) : bool :=
  match e with
  | LocationPicker.BlurAddress
  | LocationPicker.BlurPincode
  | LocationPicker.ClickDetect => true
  | _ => false
  end.

(** The record [emit] would send from a state of the location picker. *)
Definition current_location (s : LocationPicker.State)
  : LocationPicker.LocationData :=
  {| LocationPicker.address := LocationPicker.st_address s;
     LocationPicker.pincode := LocationPicker.st_pincode s;
     LocationPicker.lat := None; LocationPicker.lng := None |}.

(** The property names of the initial [formData] of the signup page. *)
Definition field_names : list string :=
  [ "firstName"; "lastName"; "email"; "password"; "hospital_name";
    "hospital_select"; "license_number"; "specialization"; "scheduleMode";
    "workMinutes"; "breakMinutes" ].

(** What every payload posted by the signup page satisfies. *)
Definition payload_wellformed (p : DoctorSignup.Payload) : Prop :=
  DoctorSignup.role p = "doctor"
  /\ JS.truthy (DoctorSignup.hospital_name p) = true
  /\ DoctorSignup.kyc_document_name p <> ""
  /\ (DoctorSignup.mode (DoctorSignup.scheduling_config p) = Some "interleaved" ->
      DoctorSignup.work_duration (DoctorSignup.scheduling_config p) <> None
      /\ DoctorSignup.break_duration (DoctorSignup.scheduling_config p) <> None).

(** What the login page has done to local storage and to the router
    after [n] successful logins, from the storage and the history it was
    mounted with. *)
Definition login_footprint (storage : gmap string string) (hist : list string)
    (w : DoctorLogin.World) : Prop :=
  (forall k, k <> "token" -> k <> "role" ->
             DoctorLogin.localStorage w !! k = storage !! k)
  /\ exists n : nat,
      DoctorLogin.history w = replicate n "/doctor/dashboard" ++ hist
      /\ (n = 0 -> DoctorLogin.localStorage w = storage)
      /\ (0 < n ->
          DoctorLogin.localStorage w !! "role" = Some "doctor"
          /\ is_Some (DoctorLogin.localStorage w !! "token")).

End Readings.

(** * Properties *)

(** ** Strings *)

Section StringFacts.

Lemma string_length_app (s t : string) :
  String.length (s +:+ t) = String.length s + String.length t.
Proof. induction s as [|c s IH]; simpl; [reflexivity | now rewrite IH]. Qed.

Lemma string_length_substring (s : string) :
  forall n m, String.length (String.substring n m s)
              = Nat.min m (String.length s - n).
Proof.
  induction s as [|c s IH]; intros n m.
  - destruct n, m; reflexivity.
  - destruct n as [|n]; simpl.
    + destruct m as [|m]; simpl; [reflexivity|].
      rewrite IH. now rewrite Nat.sub_0_r.
    + apply IH.
Qed.

End StringFacts.

(** ** parseInt *)

Module JSFacts.
Import JS.

Example parseInt_30 : parseInt "30" = Num 30.
Proof. reflexivity. Qed.

Example parseInt_prefix : parseInt "  -12px" = Num (-12).
Proof. reflexivity. Qed.

Example parseInt_hex : parseInt "0x1F" = Num 31.
Proof. reflexivity. Qed.

Example parseInt_exponent : parseInt "1e3" = Num 1.
Proof. reflexivity. Qed.

Example parseInt_none : parseInt "abc" = NaN.
Proof. reflexivity. Qed.

Example parseInt_rounds :
  parseInt "9007199254740993" = Num 9007199254740992.
Proof. vm_compute. reflexivity. Qed.

Lemma to_double_exact (z : Z) :
  (Z.abs z < 2 ^ 53)%Z -> to_double z = Num z.
Proof.
  intros Hz. unfold to_double.
  destruct (Z.ltb_spec (Z.abs z) (2 ^ 53)) as [_|Hge]; [reflexivity | lia].
Qed.

(** Reading a decimal numeral digit by digit computes what
    [Nat.of_uint_acc] computes. *)
Lemma parse_digits_uint (d : Decimal.uint) :
  forall (seen : bool) (a : nat),
    parse_digits 10 (NilEmpty.string_of_uint d) seen (Z.of_nat a)
    = (match d with Decimal.Nil => seen | _ => true end,
       Z.of_nat (Nat.of_uint_acc d a)).
Proof.
  induction d as [|d IH|d IH|d IH|d IH|d IH|d IH|d IH|d IH|d IH|d IH];
    intros seen a; [reflexivity|..];
    cbn [NilEmpty.string_of_uint parse_digits Nat.of_uint_acc];
    match goal with
    | |- context [digit_value ?c] =>
        let v := eval vm_compute in (digit_value c) in
        change (digit_value c) with v
    end;
    cbv iota beta;
    match goal with
    | |- context [(?k <? 10)%Z] => change (k <? 10)%Z with true
    end;
    cbv iota; rewrite Nat.tail_mul_spec;
    match goal with
    | |- parse_digits _ _ _ ?acc = (_, Z.of_nat (Nat.of_uint_acc d ?n)) =>
        replace acc with (Z.of_nat n) by lia
    end;
    rewrite IH; now destruct d.
Qed.

Lemma to_uint_not_nil (n : nat) : Nat.to_uint n <> Decimal.Nil.
Proof.
  rewrite <- (Unsigned.of_to n) at 1. rewrite Unsigned.to_of.
  unfold Decimal.unorm. now destruct (Decimal.nzhead (Nat.to_uint n)).
Qed.

(** A decimal numeral starts with a digit: no white space to skip, no
    sign, and no [0x] prefix. *)
Lemma parseInt_uint (d : Decimal.uint) :
  d <> Decimal.Nil ->
  parseInt (NilEmpty.string_of_uint d)
  = to_double (Z.of_nat (Nat.of_uint d)).
Proof.
  intros Hd. unfold parseInt, Nat.of_uint.
  pose proof (parse_digits_uint d false 0) as Hp.
  change (Z.of_nat 0) with 0%Z in Hp.
  assert (Hgo : forall s,
             parse_digits 10 s false 0
             = (true, Z.of_nat (Nat.of_uint_acc d 0)) ->
             (let '(b, mathInt) := parse_digits 10 s false 0 in
              if b then to_double (1 * mathInt) else NaN)
             = to_double (Z.of_nat (Nat.of_uint_acc d 0))).
  { intros s ->. f_equal. lia. }
  destruct d as [|d|d|d|d|d|d|d|d|d|d]; [contradiction|..];
    try exact (Hgo _ Hp).
  destruct d as [|d|d|d|d|d|d|d|d|d|d]; exact (Hgo _ Hp).
Qed.

(** [parseInt] reads back the decimal numeral of a natural number, up to
    the rounding of large numbers. *)
Lemma parseInt_nat_to_string (n : nat) :
  parseInt (nat_to_string n) = to_double (Z.of_nat n).
Proof.
  unfold nat_to_string. rewrite parseInt_uint by apply to_uint_not_nil.
  now rewrite Unsigned.of_to.
Qed.

Lemma nat_to_string_truthy (n : nat) : truthy (Some (nat_to_string n)) = true.
Proof.
  unfold nat_to_string. pose proof (to_uint_not_nil n) as Hd.
  now destruct (Nat.to_uint n).
Qed.

End JSFacts.

(** ** LocationPicker *)

Module LocationPickerFacts.
Import LocationPicker.

Lemma insert_at_length (i : nat) (c : ascii) (s : string) :
  i <= String.length s ->
  String.length (insert_at i c s) = S (String.length s).
Proof.
  intros Hi. unfold insert_at.
  rewrite string_length_app. simpl.
  rewrite !string_length_substring. lia.
Qed.

Lemma erase_before_length (i : nat) (s : string) :
  String.length (erase_before i s) <= String.length s.
Proof.
  unfold erase_before.
  rewrite string_length_app, !string_length_substring. lia.
Qed.

(** A keystroke in a field capped at [n] characters leaves a value
    that is no longer than [n], or than it was. *)
Lemma input_keystroke_capped (n : nat) (value : string) (k : Keystroke) v :
  input_keystroke (Some n) value k = Some v ->
  String.length v <= Nat.max n (String.length value).
Proof.
  unfold input_keystroke. destruct (key k) as [c|].
  - destruct (Nat.ltb_spec (String.length value) n) as [Hlt|]; [|discriminate].
    intros [= <-]. rewrite insert_at_length by lia. lia.
  - destruct (Nat.eqb _ 0); [discriminate|].
    intros [= <-]. pose proof (erase_before_length
      (Nat.min (caret k) (String.length value)) value). lia.
Qed.

Lemma handle_pincode_bound (b : nat) (e : Event) (w : World) :
  6 <= b ->
  String.length (st_pincode (state w)) <= b ->
  String.length (st_pincode (state (handle e w))) <= b.
Proof.
  intros Hb Hw. destruct e as [k|k| | |]; simpl; try assumption.
  - now destruct (input_keystroke _ _ _).
  - destruct (input_keystroke _ _ _) as [v|] eqn:Hk; [|assumption].
    apply input_keystroke_capped in Hk. simpl. lia.
Qed.

(** Whatever the events, the pincode never grows beyond the larger of 6
    and its length at mount. *)
Lemma run_pincode_bound (es : list Event) :
  forall (b : nat) (w : World),
    6 <= b ->
    String.length (st_pincode (state w)) <= b ->
    String.length (st_pincode (state (run es w))) <= b.
Proof.
  induction es as [|e es IH]; intros b w Hb Hw; simpl; [assumption|].
  apply IH; [assumption|]. now apply handle_pincode_bound.
Qed.

Lemma run_snoc (es : list Event) (e : Event) (w : World) :
  run (es ++ [e]) w = handle e (run es w).
Proof. unfold run. now rewrite foldl_app. Qed.

(** C4. Detecting the location, from any state of the widget, sets the
    address field to "123 Detected St, Tech Park" and the pincode field
    to "500081", and calls [onChange] once, with exactly that pair; the
    state reached and the record sent do not depend on the state the
    action starts from, so they are the same on every invocation. *)
Theorem detect_location_fixed_pair :
  let fixed := {| address := "123 Detected St, Tech Park";
                  pincode := "500081"; lat := None; lng := None |} in
  (forall w : World,
      state (handle ClickDetect w)
      = {| st_address := "123 Detected St, Tech Park";
           st_pincode := "500081" |}
      /\ emitted (handle ClickDetect w) = emitted w ++ [fixed])
  /\ (forall (p : Props) (es es' : list Event),
         let w1 := run (es ++ [ClickDetect]) (mount p) in
         let w2 := run (es' ++ [ClickDetect]) w1 in
         state w2 = state w1 /\ last (emitted w2) = last (emitted w1)
         /\ last (emitted w1) = Some fixed).
Proof.
  intros fixed. split.
  - intros w. split; reflexivity.
  - intros p es es' w1 w2. subst w1 w2.
    rewrite !run_snoc. simpl. rewrite !last_snoc. repeat split.
Qed.

(** C5. Whatever address and pincode the state holds, and whatever was
    sent before, when the address field or the pincode field loses focus
    [onChange] is called once, with a record whose address and pincode
    are exactly the two values of the state; the state is left as it
    is. *)
Theorem blur_emits_current_fields (a p : string) (log : list LocationData) :
  let w := {| state := {| st_address := a; st_pincode := p |};
              emitted := log |} in
  let sent := {| address := a; pincode := p; lat := None; lng := None |} in
  handle BlurAddress w = {| state := state w; emitted := log ++ [sent] |}
  /\ handle BlurPincode w = {| state := state w; emitted := log ++ [sent] |}.
Proof. split; reflexivity. Qed.

(** The same along a run: the record sent by a blur carries the values
    the fields have after the events that came before it. *)
Lemma blur_after_run (p : Props) (es : list Event) (e : Event) :
  is_blur e = true ->
  let w := run es (mount p) in
  last (emitted (run (es ++ [e]) (mount p)))
  = Some {| address := st_address (state w);
            pincode := st_pincode (state w); lat := None; lng := None |}.
Proof.
  intros He w. rewrite run_snoc. fold w.
  destruct e; try discriminate; simpl; now rewrite last_snoc.
Qed.

(** C7, as amended. When the pincode the widget is mounted with has at
    most 6 characters (no [initialData], or an [initialData.pincode] of
    at most 6 characters), it has at most 6 characters after any
    sequence of events: keystrokes in either field, blurs and location
    detections. *)
Theorem pincode_at_most_6 (p : Props) (es : list Event) :
  String.length (st_pincode (init_state p)) <= 6 ->
  String.length (st_pincode (state (run es (mount p)))) <= 6.
Proof. intros Hp. now apply run_pincode_bound. Qed.

Lemma pincode_at_most_6_witness :
  let p := {| initialData := Some {| p_address := None;
                                     p_pincode := Some "50008";
                                     p_lat := None; p_lng := None |} |} in
  let es := [TypePincode {| caret := 5; key := KeyChar "1" |};
             TypePincode {| caret := 6; key := KeyChar "2" |};
             BlurPincode] in
  String.length (st_pincode (init_state p)) <= 6
  /\ String.length (st_pincode (state (run es (mount p)))) <= 6.
Proof.
  intros p es. split.
  - simpl. lia.
  - apply (pincode_at_most_6 p es). simpl. lia.
Defined.

(** C7, as stated, fails: a widget mounted with a pincode of 7
    characters holds 7 characters, before and after a keystroke. *)
Lemma pincode_longer_than_6 :
  ~ (forall (p : Props) (ks : list Keystroke),
        String.length
          (st_pincode (state (run (map TypePincode ks) (mount p)))) <= 6).
Proof.
  intros H.
  specialize (H {| initialData := Some {| p_address := None;
                                          p_pincode := Some "1234567";
                                          p_lat := None; p_lng := None |} |}
                [{| caret := 7; key := KeyChar "8" |}]).
  simpl in H. lia.
Qed.

End LocationPickerFacts.

(** ** DoctorLogin *)

Module DoctorLoginFacts.
Import Eff DoctorLogin.

(** The continuation of [handleLogin] on an answer whose role is not
    "doctor": only the two state cells [error] and [loading] change. *)
Lemma login_resume_denied (data : AuthSession) (w : World) :
  role data <> "doctor" ->
  exec (handleLogin_resume (Fulfilled data)) w
  = {| state := {| email := email (state w); password := password (state w);
                   loading := false; error := access_denied |};
       localStorage := localStorage w; history := history w;
       in_flight := in_flight w; effects := effects w |}.
Proof.
  intros Hrole. apply String.eqb_neq in Hrole.
  unfold handleLogin_resume, exec, try_finally, try_catch; simpl.
  unfold mbind, M_bind, bind; simpl. now rewrite Hrole.
Qed.

(** The continuation on an answer whose role is "doctor". *)
Lemma login_resume_doctor (data : AuthSession) (w : World) :
  role data = "doctor" ->
  exec (handleLogin_resume (Fulfilled data)) w
  = {| state := {| email := email (state w); password := password (state w);
                   loading := false; error := error (state w) |};
       localStorage := <["role" := role data]>
                         (<["token" := access_token data]> (localStorage w));
       history := "/doctor/dashboard" :: history w;
       in_flight := in_flight w;
       effects := effects w ++ [SetItem "token" (access_token data);
                                SetItem "role" (role data);
                                Push "/doctor/dashboard"] |}.
Proof.
  intros Hrole. apply String.eqb_eq in Hrole.
  unfold handleLogin_resume, exec, try_finally, try_catch; simpl.
  unfold mbind, M_bind, bind; simpl. rewrite Hrole. simpl.
  now rewrite <- !app_assoc.
Qed.

(** The part of [handleLogin] that runs at submission. *)
Lemma login_submit_world (w : World) :
  exec handleLogin_submit w
  = {| state := {| email := email (state w); password := password (state w);
                   loading := true; error := "" |};
       localStorage := localStorage w; history := history w;
       in_flight := in_flight w ++ [(email (state w), password (state w))];
       effects := effects w
                  ++ [LoginCall (email (state w)) (password (state w))] |}.
Proof. reflexivity. Qed.

(** C1. For every answer of a successful login whose role is not
    "doctor", and from every state of the page: when the call settles
    the error is the access-denied message, and no effect is performed
    by the continuation; over the whole submission nothing is written to
    local storage (neither the token key nor the role key), nothing is
    pushed to the router, and loading is back to false. *)
Theorem login_other_role_denied (data : AuthSession) (w : World) :
  role data <> "doctor" ->
  let w1 := exec (handleLogin_resume (Fulfilled data)) w in
  let w2 := handleLogin (Fulfilled data) w in
  (error (state w1) = "Access Denied: This portal is for Doctors only."
   /\ localStorage w1 = localStorage w
   /\ history w1 = history w
   /\ effects w1 = effects w)
  /\ (error (state w2) = "Access Denied: This portal is for Doctors only."
      /\ loading (state w2) = false
      /\ localStorage w2 = localStorage w
      /\ localStorage w2 !! "token" = localStorage w !! "token"
      /\ localStorage w2 !! "role" = localStorage w !! "role"
      /\ history w2 = history w
      /\ effects w2
         = effects w ++ [LoginCall (email (state w)) (password (state w))]).
Proof.
  intros Hrole w1 w2. subst w1 w2. unfold handleLogin.
  rewrite !login_resume_denied by assumption. simpl. repeat split.
Qed.

Lemma login_other_role_denied_witness :
  let data := {| access_token := "eyJhbGciOi"; role := "patient" |} in
  let w := mount {[ "theme" := "dark" ]} ["/auth/doctor/login"] in
  role data <> "doctor"
  /\ error (state (handleLogin (Fulfilled data) w)) = access_denied
  /\ localStorage (handleLogin (Fulfilled data) w) = {[ "theme" := "dark" ]}
  /\ history (handleLogin (Fulfilled data) w) = ["/auth/doctor/login"].
Proof.
  intros data w.
  assert (Hrole : role data <> "doctor") by discriminate.
  split; [exact Hrole|].
  destruct (login_other_role_denied data w Hrole) as [_ (He & _ & Hs & _ & _ & Hh & _)].
  repeat split; assumption.
Defined.

(** C6. For every answer of a successful login whose role is "doctor",
    and from every state of the page: the continuation writes the
    [access_token] of the answer under the key "token", then its role
    under the key "role", then pushes "/doctor/dashboard" to the router,
    and does nothing else to the outside. *)
Theorem login_doctor_stores_and_navigates (data : AuthSession) (w : World) :
  role data = "doctor" ->
  let w1 := settle_oldest (exec handleLogin_submit w) in
  let w2 := handleLogin (Fulfilled data) w in
  localStorage w2 !! "token" = Some (access_token data)
  /\ localStorage w2 !! "role" = Some (role data)
  /\ (forall k, k <> "token" -> k <> "role" ->
                localStorage w2 !! k = localStorage w !! k)
  /\ history w2 = "/doctor/dashboard" :: history w
  /\ effects w2 = effects w1 ++ [SetItem "token" (access_token data);
                                 SetItem "role" (role data);
                                 Push "/doctor/dashboard"].
Proof.
  intros Hrole w1 w2. subst w1 w2. unfold handleLogin.
  rewrite login_resume_doctor by assumption. simpl. repeat split.
  - rewrite lookup_insert_ne by discriminate. apply lookup_insert_eq.
  - apply lookup_insert_eq.
  - intros k Ht Hr. now rewrite !lookup_insert_ne by congruence.
Qed.

Lemma login_doctor_stores_and_navigates_witness :
  let data := {| access_token := "eyJhbGciOi"; role := "doctor" |} in
  let w := mount ∅ ["/auth/doctor/login"] in
  role data = "doctor"
  /\ localStorage (handleLogin (Fulfilled data) w) !! "token"
     = Some "eyJhbGciOi"
  /\ history (handleLogin (Fulfilled data) w)
     = ["/doctor/dashboard"; "/auth/doctor/login"].
Proof.
  intros data w.
  destruct (login_doctor_stores_and_navigates data w eq_refl)
    as (Ht & _ & _ & Hh & _).
  repeat split; assumption.
Defined.

(** However the call settles, the continuation ends with loading
    false. *)
Lemma login_resume_loading (r : Settled) (w : World) :
  loading (state (exec (handleLogin_resume r) w)) = false.
Proof.
  destruct r as [data|]; [|reflexivity].
  destruct (String.eqb_spec (role data) "doctor") as [H|H].
  - now rewrite login_resume_doctor.
  - now rewrite login_resume_denied.
Qed.

Lemma login_resume_in_flight (r : Settled) (w : World) :
  in_flight (exec (handleLogin_resume r) w) = in_flight w.
Proof.
  destruct r as [data|]; [|reflexivity].
  destruct (String.eqb_spec (role data) "doctor") as [H|H].
  - now rewrite login_resume_doctor.
  - now rewrite login_resume_denied.
Qed.

Lemma login_step_gate (w w' : World) (e : Event) :
  gate w -> step w e w' -> gate w'.
Proof.
  intros Hg Hstep. inversion Hstep as [? v|? v|? Hen|? r Hne]; subst.
  - exact Hg.
  - exact Hg.
  - destruct Hg as [[_ Hq]|[Hl _]].
    + right. rewrite login_submit_world. simpl. rewrite Hq. eauto.
    + unfold submit_disabled in Hen. congruence.
  - left. rewrite login_resume_loading, login_resume_in_flight. split; [reflexivity|].
    destruct Hg as [[_ Hq]|[_ [c Hq]]]; simpl; now rewrite Hq.
Qed.

Lemma login_reachable_gate storage hist (w : World) :
  reachable (mount storage hist) w -> gate w.
Proof.
  induction 1 as [|w e w' _ IH Hstep].
  - left. split; reflexivity.
  - eapply login_step_gate; eassumption.
Qed.

(** The loading flag of the login page: what holds of every state it
    can reach. *)
Lemma loading_gates_login storage hist (w : World) :
  reachable (mount storage hist) w ->
  (in_flight w <> [] ->
   loading (state w) = true /\ submit_disabled (state w) = true
   /\ forall w', ~ step w Submit w')
  /\ length (in_flight w) <= 1
  /\ loading (state (exec handleLogin_submit w)) = true
  /\ forall r, loading (state (exec (handleLogin_resume r) (settle_oldest w)))
               = false.
Proof.
  intros Hr. apply login_reachable_gate in Hr.
  split; [|split; [|split]].
  - intros Hne. destruct Hr as [[_ Hq]|[Hl _]]; [contradiction|].
    repeat split; try assumption.
    intros w' Hstep. inversion Hstep as [| |? Hen|]; subst.
    unfold submit_disabled in Hen. congruence.
  - destruct Hr as [[_ Hq]|[_ [c Hq]]]; rewrite Hq; simpl; lia.
  - reflexivity.
  - intros r. apply login_resume_loading.
Qed.

End DoctorLoginFacts.

(** ** DoctorSignup *)

Module DoctorSignupFacts.
Import Eff DoctorSignup.

(** The three ways through the part of [handleRegister] that runs at
    submission: no hospital, durations missing, or the call is sent. *)
Lemma signup_submit_world (w : World) :
  exec handleRegister_submit w
  = if negb (JS.truthy (finalHospital (state w)))
    then with_state (after_submit false hospital_required) w
    else if durations_missing (state w)
    then with_state (after_submit false durations_required) w
    else {| state := after_submit true "" (state w);
            history := history w;
            in_flight := in_flight w
                         ++ [("/register", build_payload (state w))];
            console := console w |}.
Proof.
  unfold handleRegister_submit, exec, mbind, M_bind, bind. simpl.
  change (finalHospital _) with (finalHospital (state w)).
  destruct (JS.truthy (finalHospital (state w))); simpl; [|reflexivity].
  change (durations_missing _) with (durations_missing (state w)).
  destruct (durations_missing (state w)); reflexivity.
Qed.

(** However the call settles, the continuation of [handleRegister]
    only changes [loading] and [error] in the state, and sends
    nothing. *)
Lemma signup_resume_world (r : Settled) (w : World) :
  exists msg,
    state (exec (handleRegister_resume r) w) = after_submit false msg (state w)
    /\ in_flight (exec (handleRegister_resume r) w) = in_flight w.
Proof.
  destruct r as [|[[[d]|]]].
  - exists (error (state w)). split; reflexivity.
  - exists (JS.or_else d registration_failed). split; reflexivity.
  - exists network_error. split; reflexivity.
Qed.

(** Submission only changes [loading] and [error] in the state. *)
Lemma signup_submit_state (w : World) :
  exists l msg,
    state (exec handleRegister_submit w) = after_submit l msg (state w).
Proof.
  rewrite signup_submit_world.
  destruct (JS.truthy (finalHospital (state w)));
    [destruct (durations_missing (state w))|]; simpl; eauto.
Qed.

Lemma truthy_empty : JS.truthy (Some "") = false.
Proof. reflexivity. Qed.

(** C3. For every state of the form in which the hospital that counts
    is empty ([hospital_name] when [isCustomHospital] is true,
    [hospital_select] when it is false), submission sets the error to
    the hospital-required message, sends no call (the pending calls are
    those of before), ends with loading false, and leaves the router,
    the console and the other cells of the state as they were. *)
Theorem signup_without_hospital_rejected (w : World) :
  (isCustomHospital (state w) = true ->
   formData (state w) !! "hospital_name" = Some "") ->
  (isCustomHospital (state w) = false ->
   formData (state w) !! "hospital_select" = Some "") ->
  let w' := exec handleRegister_submit w in
  error (state w') = "Please select or enter a valid hospital name."
  /\ in_flight w' = in_flight w
  /\ loading (state w') = false
  /\ history w' = history w
  /\ console w' = console w
  /\ formData (state w') = formData (state w)
  /\ isCustomHospital (state w') = isCustomHospital (state w)
  /\ fileName (state w') = fileName (state w).
Proof.
  intros Hcustom Hlisted w'. subst w'. rewrite signup_submit_world.
  assert (Hfinal : finalHospital (state w) = Some "").
  { unfold finalHospital. destruct (isCustomHospital (state w)); auto. }
  rewrite Hfinal, truthy_empty. simpl. repeat split.
Qed.

Lemma signup_without_hospital_rejected_witness :
  let w := handle (Change "workMinutes" "30") (mount []) in
  error (state (exec handleRegister_submit w)) = hospital_required
  /\ in_flight (exec handleRegister_submit w) = []
  /\ loading (state (exec handleRegister_submit w)) = false.
Proof.
  intros w.
  assert (H1 : isCustomHospital (state w) = true ->
               formData (state w) !! "hospital_name" = Some "")
    by (intros _; vm_compute; reflexivity).
  assert (H2 : isCustomHospital (state w) = false ->
               formData (state w) !! "hospital_select" = Some "")
    by (intros _; vm_compute; reflexivity).
  destruct (signup_without_hospital_rejected w H1 H2) as (He & Hq & Hl & _).
  repeat split; assumption.
Defined.

(** C2, as amended. For every state of the form in which a hospital
    is given, [scheduleMode] is "interleaved" and [workMinutes] or
    [breakMinutes] is empty, submission sets the error to the
    duration-required message, sends no call, and ends with loading
    false. *)
Theorem signup_interleaved_without_durations_rejected (w : World) :
  JS.truthy (finalHospital (state w)) = true ->
  formData (state w) !! "scheduleMode" = Some "interleaved" ->
  formData (state w) !! "workMinutes" = Some ""
  \/ formData (state w) !! "breakMinutes" = Some "" ->
  let w' := exec handleRegister_submit w in
  error (state w')
  = "Please define both work and break durations for interleaved schedules."
  /\ in_flight w' = in_flight w
  /\ loading (state w') = false.
Proof.
  intros Hhosp Hmode Hempty w'. subst w'. rewrite signup_submit_world, Hhosp.
  assert (Hmiss : durations_missing (state w) = true).
  { unfold durations_missing. rewrite bool_decide_eq_true_2 by assumption.
    destruct Hempty as [-> | ->]; rewrite truthy_empty; simpl;
      [reflexivity | apply orb_true_r]. }
  rewrite Hmiss. simpl. repeat split.
Qed.

Lemma signup_interleaved_without_durations_rejected_witness :
  let w := run [Change "hospital_select" "City Smile Hospital";
                Change "scheduleMode" "interleaved";
                Change "workMinutes" "30"] (mount []) in
  error (state (exec handleRegister_submit w)) = durations_required
  /\ in_flight (exec handleRegister_submit w) = []
  /\ loading (state (exec handleRegister_submit w)) = false.
Proof.
  intros w.
  apply (signup_interleaved_without_durations_rejected w).
  - vm_compute. reflexivity.
  - vm_compute. reflexivity.
  - right. vm_compute. reflexivity.
Defined.

(** C2, as stated, fails: with the interleaved mode chosen, no
    duration typed and no hospital chosen, the error is the
    hospital-required message, not the duration-required one. *)
Lemma signup_interleaved_without_hospital :
  ~ (forall w : World,
        formData (state w) !! "scheduleMode" = Some "interleaved" ->
        formData (state w) !! "workMinutes" = Some ""
        \/ formData (state w) !! "breakMinutes" = Some "" ->
        let w' := exec handleRegister_submit w in
        error (state w')
        = "Please define both work and break durations for interleaved schedules."
        /\ in_flight w' = in_flight w
        /\ loading (state w') = false).
Proof.
  intros H.
  specialize (H (run [Change "scheduleMode" "interleaved"] (mount []))).
  destruct H as [He _].
  - vm_compute. reflexivity.
  - left. vm_compute. reflexivity.
  - vm_compute in He. discriminate He.
Qed.

Lemma duration_converted (field : option string) :
  converted field (duration field).
Proof.
  unfold converted, duration. repeat split.
  - now intros ->.
  - intros s -> Hs. apply String.eqb_neq in Hs. simpl. now rewrite Hs.
  - intros n Hn ->. rewrite JSFacts.nat_to_string_truthy. simpl.
    rewrite JSFacts.parseInt_nat_to_string.
    rewrite JSFacts.to_double_exact by lia. reflexivity.
Qed.

(** C8, as amended. For every state of the form that passes the two
    checks, submission sends one call, to "/register", whose payload
    carries [scheduleMode] as it is and the two durations converted:
    [null] for an empty field and [parseInt] of the text otherwise, so
    the number [n] for the decimal numeral of a natural number [n]
    below [2^53]. *)
Theorem signup_durations_converted (w : World) :
  passes_validation (state w) = true ->
  exists p : Payload,
    in_flight (exec handleRegister_submit w)
    = in_flight w ++ [("/register", p)]
    /\ mode (scheduling_config p) = formData (state w) !! "scheduleMode"
    /\ converted (formData (state w) !! "workMinutes")
                 (work_duration (scheduling_config p))
    /\ converted (formData (state w) !! "breakMinutes")
                 (break_duration (scheduling_config p)).
Proof.
  intros Hv. unfold passes_validation in Hv.
  apply andb_true_iff in Hv as [Hh Hd]. apply negb_true_iff in Hd.
  exists (build_payload (state w)).
  rewrite signup_submit_world, Hh, Hd. simpl.
  repeat split; apply duration_converted.
Qed.

Lemma signup_durations_converted_witness :
  let w := run [Change "hospital_select" "Al-Shifa Dental Center";
                Change "workMinutes" "45"] (mount []) in
  passes_validation (state w) = true
  /\ exists p : Payload,
      in_flight (exec handleRegister_submit w) = [("/register", p)]
      /\ work_duration (scheduling_config p) = Some (JS.Num 45)
      /\ break_duration (scheduling_config p) = None.
Proof.
  intros w.
  assert (Hv : passes_validation (state w) = true)
    by (vm_compute; reflexivity).
  split; [exact Hv|].
  destruct (signup_durations_converted w Hv)
    as (p & Hq & _ & (_ & _ & Hwork) & (Hbreak & _)).
  exists p. split; [exact Hq|]. split.
  - apply (Hwork 45%nat); [vm_compute; reflexivity|].
    vm_compute. reflexivity.
  - apply Hbreak. vm_compute. reflexivity.
Defined.

(** C8, as stated, fails: the text "1e3" typed as work duration
    reaches the backend as the number 1. *)
Lemma signup_duration_not_verbatim :
  ~ (forall (w : World) (p : Payload),
        passes_validation (state w) = true ->
        last (in_flight (exec handleRegister_submit w))
        = Some ("/register", p) ->
        forwarded_verbatim (formData (state w) !! "workMinutes")
                           (work_duration (scheduling_config p))
        /\ forwarded_verbatim (formData (state w) !! "breakMinutes")
                              (break_duration (scheduling_config p))).
Proof.
  intros H.
  pose (w := run [Change "hospital_select" "Apex Dental Care";
                  Change "workMinutes" "1e3"] (mount [])).
  destruct (H w (build_payload (state w))) as [Hwork _].
  - vm_compute. reflexivity.
  - vm_compute. reflexivity.
  - vm_compute in Hwork. discriminate Hwork.
Qed.

(** *** The hospital fields *)

Lemma rendered_hospital (s : State) (name : string) :
  name ∈ rendered_names s ->
  name <> (if isCustomHospital s then "hospital_select" else "hospital_name").
Proof.
  unfold rendered_names. intros Hin Heq. subst name.
  destruct (isCustomHospital s), (bool_decide (_ = _));
    apply (bool_decide_pack _) in Hin; vm_compute in Hin; exact Hin.
Qed.

Lemma handle_hidden_hospital_empty (e : Event) (w : World) :
  enabled e w = true ->
  hidden_hospital_empty (state w) ->
  hidden_hospital_empty (state (handle e w)).
Proof.
  unfold hidden_hospital_empty. intros Hen Hinv.
  destruct e as [name value|files| | |r]; simpl in *.
  - apply bool_decide_eq_true_1, rendered_hospital in Hen.
    destruct (isCustomHospital (state w));
      now rewrite lookup_insert_ne by congruence.
  - unfold handleFileChange. now destruct (files ≫= head).
  - destruct (isCustomHospital (state w)); simpl.
    + rewrite lookup_insert_ne by discriminate. apply lookup_insert_eq.
    + apply lookup_insert_eq.
  - destruct (signup_submit_state w) as (l & msg & ->). exact Hinv.
  - destruct (signup_resume_world r (settle_oldest w)) as (msg & -> & _).
    exact Hinv.
Qed.

Lemma reachable_hidden_hospital_empty hist (w : World) :
  reachable (mount hist) w -> hidden_hospital_empty (state w).
Proof.
  induction 1 as [|w e _ IH Hen]; [reflexivity|].
  now apply handle_hidden_hospital_empty.
Qed.

(** C10. In every state the form can reach from its mount: one of
    [hospital_name] and [hospital_select] is empty; while
    [isCustomHospital] is true the text field [hospital_name] is the one
    rendered, the dropdown is not, and [hospital_select] is empty; while
    it is false the dropdown [hospital_select] is the one rendered, the
    text field is not, and [hospital_name] is empty; and a toggle flips
    the mode and leaves both fields empty. *)
Theorem hospital_fields_exclusive (hist : list string) (w : World) :
  reachable (mount hist) w ->
  let s := state w in
  let s' := state (handle ToggleHospital w) in
  (formData s !! "hospital_name" = Some ""
   \/ formData s !! "hospital_select" = Some "")
  /\ (isCustomHospital s = true ->
      ("hospital_name" ∈ rendered_names s)
      /\ ("hospital_select" ∉ rendered_names s)
      /\ formData s !! "hospital_select" = Some "")
  /\ (isCustomHospital s = false ->
      ("hospital_select" ∈ rendered_names s)
      /\ ("hospital_name" ∉ rendered_names s)
      /\ formData s !! "hospital_name" = Some "")
  /\ (isCustomHospital s' = negb (isCustomHospital s)
      /\ formData s' !! "hospital_name" = Some ""
      /\ formData s' !! "hospital_select" = Some "").
Proof.
  intros Hr s s'. subst s s'.
  apply reachable_hidden_hospital_empty in Hr.
  unfold hidden_hospital_empty in Hr.
  assert (Hshown : forall b : bool,
             isCustomHospital (state w) = b ->
             (if b then "hospital_name" else "hospital_select")
               ∈ rendered_names (state w)
             /\ (if b then "hospital_select" else "hospital_name")
                  ∉ rendered_names (state w)).
  { intros b Hb. unfold rendered_names. rewrite Hb.
    destruct b, (bool_decide _); split;
      solve [ apply (bool_decide_unpack _); vm_compute; exact I
            | intros Hin; apply (bool_decide_pack _) in Hin;
              vm_compute in Hin; exact Hin ]. }
  split; [|split; [|split]].
  - destruct (isCustomHospital (state w)); auto.
  - intros Hc. rewrite Hc in Hr. destruct (Hshown true Hc). auto.
  - intros Hc. rewrite Hc in Hr. destruct (Hshown false Hc). auto.
  - simpl. repeat split.
    + rewrite lookup_insert_ne by discriminate. apply lookup_insert_eq.
    + apply lookup_insert_eq.
Qed.

Lemma hospital_fields_exclusive_witness :
  let w := handle (Change "hospital_name" "Noor Dental Clinic")
             (handle ToggleHospital (mount [])) in
  reachable (mount []) w
  /\ isCustomHospital (state w) = true
  /\ formData (state w) !! "hospital_name" = Some "Noor Dental Clinic"
  /\ formData (state w) !! "hospital_select" = Some "".
Proof.
  intros w.
  assert (Hr : reachable (mount []) w).
  { apply reachable_step.
    - apply reachable_step; [apply reachable_mount | reflexivity].
    - vm_compute. reflexivity. }
  split; [exact Hr|].
  destruct (hospital_fields_exclusive [] w Hr) as (_ & Hcustom & _).
  assert (Hc : isCustomHospital (state w) = true) by reflexivity.
  destruct (Hcustom Hc) as (_ & _ & Hsel).
  split; [exact Hc|]. split; [vm_compute; reflexivity | exact Hsel].
Defined.

(** *** The loading flag *)

(** Editing the form does not touch the flag or the pending calls. *)
Lemma edit_keeps_gate (e : Event) (w : World) :
  match e with Submit | Settle _ => False | _ => True end ->
  loading (state (handle e w)) = loading (state w)
  /\ in_flight (handle e w) = in_flight w.
Proof.
  destruct e as [name value|files| | |r]; try contradiction; intros _;
    simpl; [| unfold handleFileChange; destruct (files ≫= head) |];
    split; reflexivity.
Qed.

Lemma signup_resume_loading (r : Settled) (w : World) :
  loading (state (exec (handleRegister_resume r) w)) = false.
Proof. now destruct (signup_resume_world r w) as (msg & -> & _). Qed.

Lemma signup_handle_gate (e : Event) (w : World) :
  enabled e w = true -> gate w -> gate (handle e w).
Proof.
  intros Hen Hg.
  destruct e as [name value|files| | |r] eqn:He;
    try (destruct (edit_keeps_gate e w) as [Hl Hq]; [now subst e|];
         subst e; unfold gate; now rewrite Hl, Hq).
  - simpl in *. unfold submit_disabled in Hen.
    apply negb_true_iff in Hen.
    destruct Hg as [[_ Hq]|[Hl _]]; [|congruence].
    rewrite signup_submit_world.
    destruct (JS.truthy (finalHospital (state w)));
      [destruct (durations_missing (state w))|]; simpl.
    + left. split; [reflexivity | exact Hq].
    + right. split; [reflexivity|]. rewrite Hq. eauto.
    + left. split; [reflexivity | exact Hq].
  - simpl. left. rewrite signup_resume_loading. split; [reflexivity|].
    destruct (signup_resume_world r (settle_oldest w)) as (msg & _ & ->).
    destruct Hg as [[_ Hq]|[_ [c Hq]]]; simpl; now rewrite Hq.
Qed.

Lemma signup_reachable_gate hist (w : World) :
  reachable (mount hist) w -> gate w.
Proof.
  induction 1 as [|w e _ IH Hen].
  - left. split; reflexivity.
  - now apply signup_handle_gate.
Qed.

(** The loading flag of the signup page: what holds of every state it
    can reach. *)
Lemma loading_gates_signup hist (w : World) :
  reachable (mount hist) w ->
  (in_flight w <> [] ->
   loading (state w) = true /\ submit_disabled (state w) = true
   /\ enabled Submit w = false)
  /\ length (in_flight w) <= 1
  /\ (exists rest, handleRegister_submit = (setLoading true;; rest))
  /\ (passes_validation (state w) = false ->
      loading (state (exec handleRegister_submit w)) = false
      /\ in_flight (exec handleRegister_submit w) = in_flight w)
  /\ (passes_validation (state w) = true ->
      loading (state (exec handleRegister_submit w)) = true)
  /\ forall r, loading (state (exec (handleRegister_resume r)
                                    (settle_oldest w))) = false.
Proof.
  intros Hr. apply signup_reachable_gate in Hr.
  split; [|split; [|split; [|split; [|split]]]].
  - intros Hne. destruct Hr as [[_ Hq]|[Hl _]]; [contradiction|].
    unfold enabled, submit_disabled. rewrite Hl. repeat split.
  - destruct Hr as [[_ Hq]|[_ [c Hq]]]; rewrite Hq; simpl; lia.
  - eexists. reflexivity.
  - unfold passes_validation. intros Hv. rewrite signup_submit_world.
    destruct (JS.truthy (finalHospital (state w)));
      [destruct (durations_missing (state w))|]; simpl in *;
      try discriminate; split; reflexivity.
  - unfold passes_validation. intros Hv. rewrite signup_submit_world.
    destruct (JS.truthy (finalHospital (state w)));
      [destruct (durations_missing (state w))|]; simpl in *;
      try discriminate; reflexivity.
  - intros r. apply signup_resume_loading.
Qed.

End DoctorSignupFacts.

(** ** The loading flag of the two forms *)

(** C9. In every state the login page and the signup page can reach from
    their mount: while a call of the page is pending, loading is true,
    the submit button is disabled and the form cannot be submitted, so
    that at most one call is pending at any time; a submission begins by
    setting loading to true, and it ends with loading false, whether the
    call settles well, is rejected, or (for the signup) the form fails its
    checks and no call is sent. *)
Theorem loading_gates_submission
    (storage : gmap string string) (hist : list string)
    (wl : DoctorLogin.World) (ws : DoctorSignup.World) :
  DoctorLogin.reachable (DoctorLogin.mount storage hist) wl ->
  DoctorSignup.reachable (DoctorSignup.mount hist) ws ->
  ((DoctorLogin.in_flight wl <> [] ->
    DoctorLogin.loading (DoctorLogin.state wl) = true
    /\ DoctorLogin.submit_disabled (DoctorLogin.state wl) = true
    /\ forall w', ~ DoctorLogin.step wl DoctorLogin.Submit w')
   /\ length (DoctorLogin.in_flight wl) <= 1
   /\ DoctorLogin.loading
        (DoctorLogin.state (Eff.exec DoctorLogin.handleLogin_submit wl)) = true
   /\ forall r,
       DoctorLogin.loading
         (DoctorLogin.state
            (Eff.exec (DoctorLogin.handleLogin_resume r)
                      (DoctorLogin.settle_oldest wl))) = false)
  /\ ((DoctorSignup.in_flight ws <> [] ->
       DoctorSignup.loading (DoctorSignup.state ws) = true
       /\ DoctorSignup.submit_disabled (DoctorSignup.state ws) = true
       /\ DoctorSignup.enabled DoctorSignup.Submit ws = false)
      /\ length (DoctorSignup.in_flight ws) <= 1
      /\ (exists rest,
             DoctorSignup.handleRegister_submit
             = (DoctorSignup.setLoading true;; rest))
      /\ (DoctorSignup.passes_validation (DoctorSignup.state ws) = false ->
          DoctorSignup.loading
            (DoctorSignup.state
               (Eff.exec DoctorSignup.handleRegister_submit ws)) = false
          /\ DoctorSignup.in_flight
               (Eff.exec DoctorSignup.handleRegister_submit ws)
             = DoctorSignup.in_flight ws)
      /\ (DoctorSignup.passes_validation (DoctorSignup.state ws) = true ->
          DoctorSignup.loading
            (DoctorSignup.state
               (Eff.exec DoctorSignup.handleRegister_submit ws)) = true)
      /\ forall r,
          DoctorSignup.loading
            (DoctorSignup.state
               (Eff.exec (DoctorSignup.handleRegister_resume r)
                         (DoctorSignup.settle_oldest ws))) = false).
Proof.
  intros Hl Hs. split.
  - exact (DoctorLoginFacts.loading_gates_login storage hist wl Hl).
  - exact (DoctorSignupFacts.loading_gates_signup hist ws Hs).
Qed.

Lemma loading_gates_submission_witness :
  let wl := Eff.exec DoctorLogin.handleLogin_submit
              (DoctorLogin.mount ∅ []) in
  let ws := DoctorSignup.handle DoctorSignup.Submit
              (DoctorSignup.handle
                 (DoctorSignup.Change "hospital_select" "Apex Dental Care")
                 (DoctorSignup.mount [])) in
  DoctorLogin.in_flight wl <> []
  /\ DoctorLogin.loading (DoctorLogin.state wl) = true
  /\ DoctorSignup.in_flight ws <> []
  /\ DoctorSignup.loading (DoctorSignup.state ws) = true
  /\ DoctorSignup.enabled DoctorSignup.Submit ws = false.
Proof.
  intros wl ws.
  assert (Hl : DoctorLogin.reachable (DoctorLogin.mount ∅ []) wl).
  { eapply DoctorLogin.reachable_step; [apply DoctorLogin.reachable_mount|].
    apply DoctorLogin.step_submit. reflexivity. }
  assert (Hs : DoctorSignup.reachable (DoctorSignup.mount []) ws).
  { apply DoctorSignup.reachable_step.
    - apply DoctorSignup.reachable_step;
        [apply DoctorSignup.reachable_mount | vm_compute; reflexivity].
    - vm_compute. reflexivity. }
  destruct (loading_gates_submission ∅ [] wl ws Hl Hs)
    as [(Hlogin & _) (Hsignup & _)].
  assert (Hql : DoctorLogin.in_flight wl <> []) by discriminate.
  assert (Hqs : DoctorSignup.in_flight ws <> [])
    by (vm_compute; discriminate).
  destruct (Hlogin Hql) as (Hll & _).
  destruct (Hsignup Hqs) as (Hls & _ & Hen).
  repeat split; assumption.
Defined.

(** * Further properties of the components *)

(** ** LocationPicker: when and what it reports *)

Module LocationPickerMore.
Import LocationPicker Readings.

(** What one event adds to the calls of [onChange]: nothing, or the
    record of the fields as they are once the handler is done. *)
Lemma handle_emitted (e : Event) (w : World) :
  emitted (handle e w)
  = emitted w ++ (if calls_onChange e
                  then [current_location (state (handle e w))] else []).
Proof.
  destruct e as [k|k| | |]; simpl.
  - destruct (input_keystroke _ _ _); simpl; now rewrite app_nil_r.
  - destruct (input_keystroke _ _ _); simpl; now rewrite app_nil_r.
  - reflexivity.
  - reflexivity.
  - reflexivity.
Qed.

Lemma run_cons (e : Event) (es : list Event) (w : World) :
  run (e :: es) w = run es (handle e w).
Proof. reflexivity. Qed.

(** X1. Along any sequence of events, from any state, the calls already
    made to [onChange] stay as they are and exactly one call is added for
    each blur and each click on the detect button: typing in a field never
    calls [onChange]. *)
Theorem onChange_only_on_blur_and_detect (es : list Event) (w : World) :
  emitted w `prefix_of` emitted (run es w)
  /\ length (emitted (run es w))
     = length (emitted w) + length (List.filter calls_onChange es).
Proof.
  revert w. induction es as [|e es IH]; intros w.
  - simpl. split; [reflexivity | lia].
  - rewrite run_cons. destruct (IH (handle e w)) as [Hpre Hlen].
    rewrite handle_emitted in Hpre, Hlen. split.
    + etransitivity; [|exact Hpre]. now apply prefix_app_r.
    + rewrite Hlen, length_app. simpl.
      destruct (calls_onChange e); simpl; lia.
Qed.

Lemma run_emitted_Forall (P : LocationData -> Prop) (es : list Event) :
  (forall s, P (current_location s)) ->
  forall w, Forall P (emitted w) -> Forall P (emitted (run es w)).
Proof.
  intros HP. induction es as [|e es IH]; intros w Hw; [exact Hw|].
  rewrite run_cons. apply IH. rewrite handle_emitted.
  apply Forall_app. split; [exact Hw|].
  destruct (calls_onChange e); repeat constructor. apply HP.
Qed.

(** X2. Whatever [initialData] holds (coordinates included) and whatever
    the events, no record passed to [onChange] carries a latitude or a
    longitude. *)
Theorem emitted_without_coordinates (p : Props) (es : list Event) :
  Forall (fun loc => lat loc = None /\ lng loc = None)
         (emitted (run es (mount p))).
Proof.
  apply run_emitted_Forall.
  - intros s. split; reflexivity.
  - constructor.
Qed.

(** X3. The fields start from [initialData]: a given address or pincode
    is the initial value of its field, and a field whose value is missing
    (or when [initialData] itself is missing) starts empty; the first blur
    reports exactly these values. *)
Theorem mount_seeds_fields (p : Props) :
  st_address (state (mount p)) = default "" (initialData p ≫= p_address)
  /\ st_pincode (state (mount p)) = default "" (initialData p ≫= p_pincode)
  /\ emitted (handle BlurAddress (mount p))
     = [ {| address := default "" (initialData p ≫= p_address);
            pincode := default "" (initialData p ≫= p_pincode);
            lat := None; lng := None |} ].
Proof.
  assert (Hor : forall v, JS.or_else v "" = default "" v).
  { intros [s|]; [|reflexivity]. unfold JS.or_else, JS.truthy.
    destruct (String.eqb_spec s ""); simpl; congruence. }
  unfold emit, mount, init_state; simpl. rewrite !Hor. repeat split.
Qed.

(** X4. Right after any event that calls [onChange] (a blur or a click
    on the detect button), at the end of any sequence of events, the last
    record passed to [onChange] is the pair of values the two fields
    hold. *)
Theorem last_emitted_is_current (es : list Event) (e : Event) (w : World) :
  calls_onChange e = true ->
  last (emitted (run (es ++ [e]) w))
  = Some (current_location (state (run (es ++ [e]) w))).
Proof.
  intros He. unfold run. rewrite foldl_app. simpl.
  rewrite handle_emitted, He. apply last_snoc.
Qed.

Lemma last_emitted_is_current_witness :
  let es := [TypeAddress {| caret := 0; key := KeyChar "A" |};
             ClickDetect;
             TypePincode {| caret := 6; key := KeyBackspace |}] in
  last (emitted (run (es ++ [BlurPincode]) (mount {| initialData := None |})))
  = Some {| address := "123 Detected St, Tech Park"; pincode := "50008";
            lat := None; lng := None |}.
Proof.
  intros es.
  exact (last_emitted_is_current es BlurPincode
           (mount {| initialData := None |}) eq_refl).
Defined.

End LocationPickerMore.

(** ** DoctorLogin: what a session leaves behind *)

Module DoctorLoginMore.
Import Eff DoctorLogin Readings.

(** X5. When the login call is rejected, from any state of the page: the
    error is the invalid-credentials message, the reason is logged once
    with [console.error] and nothing else is done to the outside (local
    storage and the router are untouched), loading is back to false, and
    the email and the password typed are kept. *)
Theorem login_rejected_reports_error (w : World) :
  let w' := exec (handleLogin_resume Rejected) w in
  error (state w') = "Invalid credentials or server error."
  /\ loading (state w') = false
  /\ email (state w') = email (state w)
  /\ password (state w') = password (state w)
  /\ localStorage w' = localStorage w
  /\ history w' = history w
  /\ effects w' = effects w ++ [ConsoleError].
Proof. repeat split. Qed.

Lemma login_footprint_same storage hist (w w' : World) :
  localStorage w' = localStorage w ->
  history w' = history w ->
  login_footprint storage hist w -> login_footprint storage hist w'.
Proof. unfold login_footprint. now intros -> ->. Qed.

Lemma login_step_footprint storage hist (w w' : World) (e : Event) :
  login_footprint storage hist w -> step w e w' ->
  login_footprint storage hist w'.
Proof.
  intros Hf Hstep. inversion Hstep as [? v|? v|? Hen|? r Hne]; subst;
    try (revert Hf; apply login_footprint_same; reflexivity).
  destruct r as [data|];
    [|revert Hf; apply login_footprint_same; reflexivity].
  destruct (String.eqb_spec (role data) "doctor") as [Hrole|Hrole].
  - rewrite DoctorLoginFacts.login_resume_doctor by assumption.
    destruct Hf as (Hframe & n & Hhist & _ & _). split; simpl.
    + intros k Ht Hr. rewrite !lookup_insert_ne by congruence.
      now apply Hframe.
    + exists (S n). rewrite Hhist, Hrole. repeat split.
      * discriminate.
      * apply lookup_insert_eq.
      * rewrite lookup_insert_ne by discriminate.
        rewrite lookup_insert_eq. eauto.
  - rewrite DoctorLoginFacts.login_resume_denied by assumption.
    revert Hf. apply login_footprint_same; reflexivity.
Qed.

(** X6. In every state the login page can reach from its mount: the
    keys of local storage other than "token" and "role" hold what they
    held at mount; the router history is the one of the mount with some
    number of pushes of "/doctor/dashboard" on top and nothing else; as
    long as there was no such push local storage is exactly as at mount,
    and once there was one the key "role" holds "doctor" and the key
    "token" is set. *)
Theorem login_footprint_reachable
    (storage : gmap string string) (hist : list string) (w : World) :
  reachable (mount storage hist) w ->
  (forall k, k <> "token" -> k <> "role" -> localStorage w !! k = storage !! k)
  /\ exists n : nat,
      history w = replicate n "/doctor/dashboard" ++ hist
      /\ (n = 0 -> localStorage w = storage)
      /\ (0 < n -> localStorage w !! "role" = Some "doctor"
                   /\ is_Some (localStorage w !! "token")).
Proof.
  intros Hr. change (login_footprint storage hist w).
  induction Hr as [|w e w' _ IH Hstep].
  - split; [reflexivity|]. exists 0. repeat split; lia.
  - eapply login_step_footprint; eassumption.
Qed.

Lemma login_footprint_reachable_witness :
  let w0 := mount {[ "role" := "patient"; "theme" := "dark" ]} ["/"] in
  let w := exec (handleLogin_resume
                   (Fulfilled {| access_token := "t0k3n"; role := "doctor" |}))
             (settle_oldest (exec handleLogin_submit w0)) in
  reachable w0 w
  /\ localStorage w !! "theme" = Some "dark"
  /\ localStorage w !! "role" = Some "doctor"
  /\ history w = ["/doctor/dashboard"; "/"].
Proof.
  intros w0 w.
  assert (Hr : reachable w0 w).
  { eapply reachable_step.
    - eapply reachable_step; [apply reachable_mount|].
      apply step_submit. reflexivity.
    - apply step_settle. discriminate. }
  split; [exact Hr|].
  destruct (login_footprint_reachable _ _ w Hr) as (Hframe & _).
  split; [|split; reflexivity].
  rewrite (Hframe "theme") by discriminate. reflexivity.
Defined.

Lemma login_loading_no_error storage hist (w : World) :
  reachable (mount storage hist) w ->
  loading (state w) = true -> error (state w) = "".
Proof.
  induction 1 as [|w e w' _ IH Hstep]; [discriminate|].
  inversion Hstep as [? v|? v|? Hen|? r Hne]; subst; try exact IH.
  - reflexivity.
  - rewrite DoctorLoginFacts.login_resume_loading. discriminate.
Qed.

(** X7. In every state the login page can reach from its mount, while
    loading is true the error is empty: no error message is shown while a
    call is pending. *)
Theorem login_no_error_while_loading
    (storage : gmap string string) (hist : list string) (w : World) :
  reachable (mount storage hist) w ->
  loading (state w) = true -> error (state w) = "".
Proof. apply login_loading_no_error. Qed.

Lemma login_no_error_while_loading_witness :
  let w1 := exec (handleLogin_resume Rejected)
              (settle_oldest (exec handleLogin_submit (mount ∅ []))) in
  let w2 := exec handleLogin_submit w1 in
  error (state w1) = invalid_credentials
  /\ loading (state w2) = true
  /\ error (state w2) = "".
Proof.
  intros w1 w2.
  assert (Hr : reachable (mount ∅ []) w2).
  { eapply reachable_step.
    - eapply reachable_step.
      + eapply reachable_step; [apply reachable_mount|].
        apply step_submit. reflexivity.
      + apply (step_settle _ Rejected). discriminate.
    - apply step_submit. reflexivity. }
  split; [reflexivity|]. split; [reflexivity|].
  exact (login_no_error_while_loading ∅ [] w2 Hr eq_refl).
Defined.

(** X21. In every state the login page can reach from its mount with a
    call pending, when that call is fulfilled with the role "doctor" the
    page ends with no error shown (an error left by an earlier attempt was
    cleared at submission), loading false, no call pending, and
    "/doctor/dashboard" on top of the router history. *)
Theorem login_success_end_state
    (storage : gmap string string) (hist : list string) (w : World)
    (data : AuthSession) :
  reachable (mount storage hist) w ->
  in_flight w <> [] ->
  role data = "doctor" ->
  let w' := exec (handleLogin_resume (Fulfilled data)) (settle_oldest w) in
  error (state w') = ""
  /\ loading (state w') = false
  /\ in_flight w' = []
  /\ head (history w') = Some "/doctor/dashboard".
Proof.
  intros Hr Hne Hrole w'. subst w'.
  pose proof (login_loading_no_error _ _ _ Hr) as Herr.
  apply DoctorLoginFacts.login_reachable_gate in Hr.
  destruct Hr as [[_ Hq]|[Hl [c Hq]]]; [contradiction|].
  rewrite DoctorLoginFacts.login_resume_doctor by assumption. simpl.
  rewrite Hq, (Herr Hl). repeat split.
Qed.

Lemma login_success_end_state_witness :
  let w := exec handleLogin_submit
             (exec (handleLogin_resume Rejected)
                (settle_oldest (exec handleLogin_submit (mount ∅ [])))) in
  let data := {| access_token := "t0k3n"; role := "doctor" |} in
  let w' := exec (handleLogin_resume (Fulfilled data)) (settle_oldest w) in
  error (state w') = "" /\ in_flight w' = [].
Proof.
  intros w data w'.
  assert (Hr : reachable (mount ∅ []) w).
  { eapply reachable_step.
    - eapply reachable_step.
      + eapply reachable_step; [apply reachable_mount|].
        apply step_submit. reflexivity.
      + apply (step_settle _ Rejected). discriminate.
    - apply step_submit. reflexivity. }
  assert (Hne : in_flight w <> []) by discriminate.
  destruct (login_success_end_state ∅ [] w data Hr Hne eq_refl)
    as (He & _ & Hq & _).
  split; assumption.
Defined.

(** X22. The call sent at submission carries the email and the password
    typed last, whichever was typed first, from any state of the page;
    the submission keeps both in their fields. *)
Theorem login_sends_typed_credentials (e p : string) (w : World) :
  let typed := exec (setPassword p) (exec (setEmail e) w) in
  let w' := exec handleLogin_submit typed in
  exec (setEmail e) (exec (setPassword p) w) = typed
  /\ in_flight w' = in_flight w ++ [(e, p)]
  /\ effects w' = effects w ++ [LoginCall e p]
  /\ email (state w') = e
  /\ password (state w') = p.
Proof. repeat split. Qed.

End DoctorLoginMore.

(** ** DoctorSignup: submissions, payloads and answers *)

Module DoctorSignupMore.
Import Eff DoctorSignup Readings.

Lemma or_else_nonempty (v : option string) (d : string) :
  d <> "" -> JS.or_else v d <> "".
Proof.
  intros Hd. unfold JS.or_else, JS.truthy. destruct v as [s|]; [|exact Hd].
  destruct (String.eqb_spec s ""); simpl; assumption.
Qed.

(** X8. What a submission does, from any state of the form: it never
    touches the router, the console or the fields; when the form passes
    the two checks it sends exactly one call, to "/register", with the
    payload built from the state, clears the error and leaves loading
    true; when it does not, it sends nothing, leaves loading false and
    sets the error to one of the two messages of the checks. *)
Theorem signup_submit_outcome (w : World) :
  let w' := exec handleRegister_submit w in
  history w' = history w
  /\ console w' = console w
  /\ formData (state w') = formData (state w)
  /\ isCustomHospital (state w') = isCustomHospital (state w)
  /\ fileName (state w') = fileName (state w)
  /\ if passes_validation (state w)
     then in_flight w' = in_flight w ++ [("/register", build_payload (state w))]
          /\ loading (state w') = true
          /\ error (state w') = ""
     else in_flight w' = in_flight w
          /\ loading (state w') = false
          /\ (error (state w') = "Please select or enter a valid hospital name."
              \/ error (state w')
                 = "Please define both work and break durations for interleaved schedules.").
Proof.
  intros w'. subst w'. rewrite DoctorSignupFacts.signup_submit_world.
  unfold passes_validation.
  destruct (JS.truthy (finalHospital (state w)));
    [destruct (durations_missing (state w))|]; simpl; repeat split; auto.
Qed.

(** The names of the rendered fields are property names of the initial
    [formData]. *)
Lemma rendered_names_fields (s : State) (name : string) :
  name ∈ rendered_names s -> name ∈ field_names.
Proof.
  unfold rendered_names, field_names.
  destruct (isCustomHospital s), (bool_decide (_ = _)); simpl;
    rewrite !elem_of_cons, elem_of_nil; tauto.
Qed.

Lemma handle_formData_dom (e : Event) (w : World) :
  enabled e w = true ->
  dom (formData (state w)) = list_to_set field_names ->
  dom (formData (state (handle e w))) = list_to_set field_names.
Proof.
  intros Hen Hdom.
  assert (Hin : forall k, k ∈ field_names ->
                          {[k]} ∪ dom (formData (state w))
                          = dom (formData (state w))).
  { intros k Hk. apply subseteq_union_1_L, singleton_subseteq_l.
    rewrite Hdom. now apply elem_of_list_to_set. }
  rewrite <- Hdom. clear Hdom.
  destruct e as [name value|files| | |r]; simpl in *.
  - apply bool_decide_eq_true_1, rendered_names_fields in Hen.
    rewrite dom_insert_L. now apply Hin.
  - unfold handleFileChange. now destruct (files ≫= head).
  - rewrite !dom_insert_L.
    rewrite (Hin "hospital_name"), (Hin "hospital_select");
      [reflexivity|..]; unfold field_names; rewrite !elem_of_cons; tauto.
  - now destruct (DoctorSignupFacts.signup_submit_state w) as (l & msg & ->).
  - now destruct (DoctorSignupFacts.signup_resume_world r (settle_oldest w))
      as (msg & -> & _).
Qed.

Lemma reachable_formData_dom hist (w : World) :
  reachable (mount hist) w ->
  dom (formData (state w)) = list_to_set field_names.
Proof.
  induction 1 as [|w e _ IH Hen].
  - unfold mount, initial_state, initial_formData. cbn [state formData].
    now rewrite dom_list_to_map_L.
  - now apply handle_formData_dom.
Qed.

(** X9. In every state the signup form can reach from its mount,
    [formData] has exactly the eleven properties it started with: no
    change event adds or removes one.  Hence every property the payload
    copies from [formData] is defined. *)
Theorem signup_form_properties_kept (hist : list string) (w : World) :
  reachable (mount hist) w ->
  (forall k, is_Some (formData (state w) !! k) <-> k ∈ field_names)
  /\ is_Some (pl_email (build_payload (state w)))
  /\ is_Some (pl_password (build_payload (state w)))
  /\ is_Some (hospital_name (build_payload (state w)))
  /\ is_Some (specialization (build_payload (state w)))
  /\ is_Some (license_number (build_payload (state w)))
  /\ is_Some (mode (scheduling_config (build_payload (state w)))).
Proof.
  intros Hr. apply reachable_formData_dom in Hr.
  assert (Hk : forall k, is_Some (formData (state w) !! k) <-> k ∈ field_names).
  { intros k. rewrite <- elem_of_dom, Hr. apply elem_of_list_to_set. }
  split; [exact Hk|].
  unfold build_payload, finalHospital; simpl.
  destruct (isCustomHospital (state w));
    repeat split; apply Hk; unfold field_names;
    rewrite !elem_of_cons; tauto.
Qed.

Lemma signup_form_properties_kept_witness :
  let w := handle (Change "email" "dr.noor@example.com")
             (handle ToggleHospital (mount [])) in
  reachable (mount []) w
  /\ pl_email (build_payload (state w)) = Some "dr.noor@example.com"
  /\ is_Some (license_number (build_payload (state w)))
  /\ ~ is_Some (formData (state w) !! "phone").
Proof.
  intros w.
  assert (Hr : reachable (mount []) w).
  { apply reachable_step.
    - apply reachable_step; [apply reachable_mount | reflexivity].
    - vm_compute. reflexivity. }
  split; [exact Hr|].
  destruct (signup_form_properties_kept [] w Hr)
    as (Hk & _ & _ & _ & _ & Hlic & _).
  split; [vm_compute; reflexivity|]. split; [exact Hlic|].
  rewrite Hk. unfold field_names. rewrite !elem_of_cons, elem_of_nil.
  intros H. repeat (destruct H as [H|H]; [discriminate H|]). exact H.
Defined.

Lemma handle_specialization (e : Event) (w : World) :
  enabled e w = true ->
  formData (state (handle e w)) !! "specialization"
  = formData (state w) !! "specialization".
Proof.
  intros Hen. destruct e as [name value|files| | |r]; simpl in *.
  - apply bool_decide_eq_true_1 in Hen.
    rewrite lookup_insert_ne; [reflexivity|]. intros ->.
    apply (bool_decide_pack _) in Hen. revert Hen. unfold rendered_names.
    destruct (isCustomHospital (state w)), (bool_decide (_ = _));
      vm_compute; exact (fun H => H).
  - unfold handleFileChange. now destruct (files ≫= head).
  - now rewrite !lookup_insert_ne by discriminate.
  - now destruct (DoctorSignupFacts.signup_submit_state w) as (l & msg & ->).
  - now destruct (DoctorSignupFacts.signup_resume_world r (settle_oldest w))
      as (msg & -> & _).
Qed.

(** X10. No field of the form is named "specialization": in every state
    the form can reach from its mount the specialization is the initial
    "General Dentist", and so is the one of every payload built. *)
Theorem signup_specialization_fixed (hist : list string) (w : World) :
  reachable (mount hist) w ->
  formData (state w) !! "specialization" = Some "General Dentist"
  /\ specialization (build_payload (state w)) = Some "General Dentist".
Proof.
  intros Hr.
  assert (H : formData (state w) !! "specialization" = Some "General Dentist").
  { induction Hr as [|w e _ IH Hen]; [reflexivity|].
    now rewrite handle_specialization. }
  split; exact H.
Qed.

Lemma signup_specialization_fixed_witness :
  let w := handle (Change "license_number" "PMC-12345-X")
             (handle (Change "scheduleMode" "interleaved") (mount [])) in
  reachable (mount []) w
  /\ specialization (build_payload (state w)) = Some "General Dentist".
Proof.
  intros w.
  assert (Hr : reachable (mount []) w).
  { apply reachable_step.
    - apply reachable_step; [apply reachable_mount | vm_compute; reflexivity].
    - vm_compute. reflexivity. }
  split; [exact Hr|].
  exact (proj2 (signup_specialization_fixed [] w Hr)).
Defined.

Lemma valid_payload_wellformed (s : State) :
  passes_validation s = true -> payload_wellformed (build_payload s).
Proof.
  unfold passes_validation, payload_wellformed. intros Hv.
  apply andb_true_iff in Hv as [Hh Hd]. apply negb_true_iff in Hd.
  split; [reflexivity|]. split; [exact Hh|]. split.
  - apply or_else_nonempty. discriminate.
  - simpl. intros Hmode. unfold durations_missing in Hd.
    rewrite bool_decide_eq_true_2 in Hd by exact Hmode. simpl in Hd.
    apply orb_false_iff in Hd as [Hw Hb].
    apply negb_false_iff in Hw, Hb. unfold duration.
    rewrite Hw, Hb. split; discriminate.
Qed.

Lemma handle_in_flight_Forall (P : string * Payload -> Prop) (e : Event) (w : World) :
  (passes_validation (state w) = true ->
   P ("/register", build_payload (state w))) ->
  Forall P (in_flight w) -> Forall P (in_flight (handle e w)).
Proof.
  intros Hnew Hall. destruct e as [name value|files| | |r].
  - exact Hall.
  - simpl. unfold handleFileChange. now destruct (files ≫= head).
  - exact Hall.
  - simpl. rewrite DoctorSignupFacts.signup_submit_world.
    unfold passes_validation in Hnew.
    destruct (JS.truthy (finalHospital (state w)));
      [destruct (durations_missing (state w))|]; simpl; try exact Hall.
    apply Forall_app. split; [exact Hall|]. constructor; [|constructor].
    now apply Hnew.
  - simpl.
    destruct (DoctorSignupFacts.signup_resume_world r (settle_oldest w))
      as (msg & _ & ->).
    simpl. destruct Hall; [constructor | assumption].
Qed.

(** X11. In every state the signup form can reach from its mount, every
    pending call is a call to "/register" whose payload has the role
    "doctor", a hospital name that is not empty, a document name that is
    not empty and, when its mode is "interleaved", a work duration and a
    break duration that are not [null]. *)
Theorem signup_pending_payloads_wellformed (hist : list string) (w : World) :
  reachable (mount hist) w ->
  forall (url : string) (p : Payload),
    (url, p) ∈ in_flight w ->
    url = "/register"
    /\ role p = "doctor"
    /\ JS.truthy (hospital_name p) = true
    /\ kyc_document_name p <> ""
    /\ (mode (scheduling_config p) = Some "interleaved" ->
        work_duration (scheduling_config p) <> None
        /\ break_duration (scheduling_config p) <> None).
Proof.
  intros Hr.
  assert (Hall : Forall (fun c => c.1 = "/register" /\ payload_wellformed c.2)
                        (in_flight w)).
  { induction Hr as [|w e _ IH Hen]; [constructor|].
    apply handle_in_flight_Forall; [|exact IH].
    intros Hv. split; [reflexivity|]. now apply valid_payload_wellformed. }
  intros url p Hin. rewrite Forall_forall in Hall.
  destruct (Hall _ Hin) as [Hurl Hp]. exact (conj Hurl Hp).
Qed.

Lemma signup_pending_payloads_wellformed_witness :
  let w := run [Change "hospital_select" "City Smile Hospital";
                Change "scheduleMode" "interleaved";
                Change "workMinutes" "25"; Change "breakMinutes" "5";
                Submit] (mount []) in
  exists p, in_flight w = [("/register", p)]
            /\ role p = "doctor"
            /\ work_duration (scheduling_config p) <> None.
Proof.
  intros w.
  assert (Hr : reachable (mount []) w).
  { repeat (apply reachable_step; [|vm_compute; reflexivity]).
    apply reachable_mount. }
  exists (build_payload
            (state (run [Change "hospital_select" "City Smile Hospital";
                         Change "scheduleMode" "interleaved";
                         Change "workMinutes" "25";
                         Change "breakMinutes" "5"] (mount [])))).
  assert (Hq : in_flight w
               = [("/register",
                   build_payload
                     (state (run [Change "hospital_select" "City Smile Hospital";
                                  Change "scheduleMode" "interleaved";
                                  Change "workMinutes" "25";
                                  Change "breakMinutes" "5"] (mount []))))])
    by (vm_compute; reflexivity).
  split; [exact Hq|].
  destruct (signup_pending_payloads_wellformed [] w Hr _ _
              ltac:(rewrite Hq; apply list_elem_of_here))
    as (_ & Hrole & _ & _ & Hdur).
  split; [exact Hrole|].
  apply Hdur. vm_compute. reflexivity.
Defined.


(** X13. The signup page pushes to the router only when a registration
    call is fulfilled, and then it pushes "/auth/doctor/login": every
    other event, enabled or not, leaves the history as it is. *)
Theorem signup_navigates_only_on_success (e : Event) (w : World) :
  history (handle e w)
  = match e with
    | Settle Fulfilled => "/auth/doctor/login" :: history w
    | _ => history w
    end.
Proof.
  destruct e as [name value|files| | |[|err]]; try reflexivity.
  - simpl. unfold handleFileChange. now destruct (files ≫= head).
  - simpl. rewrite DoctorSignupFacts.signup_submit_world.
    destruct (JS.truthy (finalHospital (state w)));
      [destruct (durations_missing (state w))|]; reflexivity.
  - destruct err as [[resp|]]; reflexivity.
Qed.

(** X14. Choosing files sets the file name to the name of the first file
    chosen; an event without files (none, or an empty list) keeps the name
    chosen before.  Nothing else changes.  Whatever was chosen, the
    document name of the payload is not empty: it is "pending_upload"
    until a file with a name that is not empty is chosen. *)
Theorem signup_file_name (files : option (list string)) (w : World) :
  let w' := handle (FileChange files) w in
  fileName (state w')
  = match files with
    | Some (name :: _) => Some name
    | _ => fileName (state w)
    end
  /\ formData (state w') = formData (state w)
  /\ loading (state w') = loading (state w)
  /\ error (state w') = error (state w)
  /\ isCustomHospital (state w') = isCustomHospital (state w)
  /\ in_flight w' = in_flight w
  /\ kyc_document_name (build_payload (state w')) <> ""
  /\ (fileName (state w') = None ->
      kyc_document_name (build_payload (state w')) = "pending_upload").
Proof.
  intros w'. subst w'.
  assert (Hdoc : forall s, kyc_document_name (build_payload s) <> ""
                           /\ (fileName s = None ->
                               kyc_document_name (build_payload s)
                               = "pending_upload")).
  { intros s. simpl. split; [apply or_else_nonempty; discriminate|].
    now intros ->. }
  destruct files as [[|name rest]|];
    repeat (split; [reflexivity|]); apply Hdoc.
Qed.

(** X15. A change event sets the property of [formData] named by the
    field to the value of the field and leaves every other property, and
    every other cell of the state, as it is; the same event once more
    changes nothing. *)
Theorem signup_change_sets_one_property (name value : string) (w : World) :
  let w' := handle (Change name value) w in
  formData (state w') !! name = Some value
  /\ (forall k, k <> name ->
                formData (state w') !! k = formData (state w) !! k)
  /\ handle (Change name value) w' = w'
  /\ loading (state w') = loading (state w)
  /\ error (state w') = error (state w)
  /\ fileName (state w') = fileName (state w)
  /\ isCustomHospital (state w') = isCustomHospital (state w)
  /\ in_flight w' = in_flight w
  /\ history w' = history w.
Proof.
  intros w'. subst w'. simpl. repeat split.
  - apply lookup_insert_eq.
  - intros k Hk. now apply lookup_insert_ne.
  - unfold exec, handleChange, setFormData, modify, with_state. simpl.
    now rewrite insert_insert_eq.
Qed.

(** X16. After the hospital mode is toggled, from any state of the form,
    a submission is refused with the hospital-required message and sends
    nothing: what was chosen or typed as hospital is gone.  A second
    toggle brings the mode back, not the hospital. *)
Theorem signup_toggle_then_submit_refused (w : World) :
  let w1 := handle ToggleHospital w in
  let w2 := exec handleRegister_submit w1 in
  error (state w2) = "Please select or enter a valid hospital name."
  /\ in_flight w2 = in_flight w
  /\ loading (state w2) = false
  /\ isCustomHospital (state (handle ToggleHospital w1))
     = isCustomHospital (state w)
  /\ finalHospital (state (handle ToggleHospital w1)) = Some "".
Proof.
  intros w1 w2. subst w1 w2.
  assert (Hfinal : forall w, finalHospital (state (handle ToggleHospital w))
                             = Some "").
  { intros w0. unfold finalHospital. simpl.
    destruct (isCustomHospital (state w0)); simpl.
    - apply lookup_insert_eq.
    - rewrite lookup_insert_ne by discriminate. apply lookup_insert_eq. }
  rewrite DoctorSignupFacts.signup_submit_world, !Hfinal. simpl.
  repeat split. apply negb_involutive.
Qed.

Lemma handle_error_edit (e : Event) (w : World) :
  match e with Submit | Settle _ => False | _ => True end ->
  error (state (handle e w)) = error (state w).
Proof.
  destruct e as [name value|files| | |r]; try contradiction; intros _;
    simpl; [| unfold handleFileChange; destruct (files ≫= head) |];
    reflexivity.
Qed.

Lemma signup_loading_no_error hist (w : World) :
  reachable (mount hist) w ->
  loading (state w) = true -> error (state w) = "".
Proof.
  induction 1 as [|w e _ IH Hen]; [discriminate|].
  destruct e as [name value|files| | |r] eqn:He;
    try (destruct (DoctorSignupFacts.edit_keeps_gate e w) as [Hl _];
         [now subst e|];
         pose proof (handle_error_edit e w) as Herr; subst e;
         rewrite Hl, Herr by exact I; exact IH).
  - simpl. rewrite DoctorSignupFacts.signup_submit_world.
    destruct (JS.truthy (finalHospital (state w)));
      [destruct (durations_missing (state w))|]; simpl;
      solve [discriminate | reflexivity].
  - simpl. rewrite DoctorSignupFacts.signup_resume_loading. discriminate.
Qed.

(** X17. In every state the signup form can reach from its mount, while
    loading is true the error is empty: no error message is shown while a
    call is pending. *)
Theorem signup_no_error_while_loading (hist : list string) (w : World) :
  reachable (mount hist) w ->
  loading (state w) = true -> error (state w) = "".
Proof. apply signup_loading_no_error. Qed.

Lemma signup_no_error_while_loading_witness :
  let w1 := handle Submit (mount []) in
  let w2 := handle Submit
              (handle (Change "hospital_select" "Apex Dental Care") w1) in
  error (state w1) = hospital_required
  /\ loading (state w2) = true
  /\ error (state w2) = "".
Proof.
  intros w1 w2.
  assert (Hr : reachable (mount []) w2).
  { repeat (apply reachable_step; [|vm_compute; reflexivity]).
    apply reachable_mount. }
  split; [vm_compute; reflexivity|].
  assert (Hl : loading (state w2) = true) by (vm_compute; reflexivity).
  split; [exact Hl|].
  exact (signup_no_error_while_loading [] w2 Hr Hl).
Defined.

(** X23. In every state the signup form can reach from its mount with a
    call pending, when that call is fulfilled the page ends with no error
    shown, loading false, no call pending, and "/auth/doctor/login" on
    top of the router history; what the user entered is kept. *)
Theorem signup_success_end_state (hist : list string) (w : World) :
  reachable (mount hist) w ->
  in_flight w <> [] ->
  let w' := handle (Settle Fulfilled) w in
  error (state w') = ""
  /\ loading (state w') = false
  /\ in_flight w' = []
  /\ head (history w') = Some "/auth/doctor/login"
  /\ formData (state w') = formData (state w).
Proof.
  intros Hr Hne w'. subst w'.
  pose proof (signup_loading_no_error _ _ Hr) as Herr.
  apply DoctorSignupFacts.signup_reachable_gate in Hr.
  destruct Hr as [[_ Hq]|[Hl [c Hq]]]; [contradiction|].
  simpl. unfold exec. simpl. rewrite Hq, (Herr Hl). repeat split.
Qed.

Lemma signup_success_end_state_witness :
  let w := handle Submit
             (handle (Change "hospital_select" "Apex Dental Care")
                (handle Submit (mount []))) in
  in_flight w <> []
  /\ error (state (handle (Settle Fulfilled) w)) = ""
  /\ head (history (handle (Settle Fulfilled) w)) = Some "/auth/doctor/login".
Proof.
  intros w.
  assert (Hr : reachable (mount []) w).
  { repeat (apply reachable_step; [|vm_compute; reflexivity]).
    apply reachable_mount. }
  assert (Hne : in_flight w <> []) by (vm_compute; discriminate).
  split; [exact Hne|].
  destruct (signup_success_end_state [] w Hr Hne) as (He & _ & _ & Hh & _).
  split; assumption.
Defined.

End DoctorSignupMore.

(** ** The navigation of the two layouts *)

Module LayoutsFacts.
Import Layouts.

Lemma admin_link_class (pathname : string) (item : NavItem) :
  className (admin_link pathname item)
  = admin_link_base +:+ admin_link_active
  <-> href item = pathname.
Proof.
  unfold admin_link. simpl.
  destruct (String.eqb_spec pathname (href item)) as [->|Hne].
  - split; reflexivity.
  - split; [discriminate | congruence].
Qed.

Lemma org_link_class (pathname : string) (item : NavItem) :
  className (org_link pathname item) = org_link_base +:+ org_link_active
  <-> href item = pathname.
Proof.
  unfold org_link. simpl.
  destruct (String.eqb_spec pathname (href item)) as [->|Hne].
  - split; reflexivity.
  - split; [discriminate | congruence].
Qed.

Lemma NAV_ITEMS_href_inj (i j : NavItem) :
  i ∈ NAV_ITEMS -> j ∈ NAV_ITEMS -> href i = href j -> i = j.
Proof.
  unfold NAV_ITEMS. rewrite !elem_of_cons, !elem_of_nil.
  intros Hi Hj.
  repeat (destruct Hi as [Hi|Hi]); repeat (destruct Hj as [Hj|Hj]);
    try contradiction; subst; simpl; intros H;
    solve [reflexivity | discriminate H].
Qed.

Lemma ORG_NAV_href_inj (i j : NavItem) :
  i ∈ ORG_NAV -> j ∈ ORG_NAV -> href i = href j -> i = j.
Proof.
  unfold ORG_NAV. rewrite !elem_of_cons, !elem_of_nil.
  intros Hi Hj.
  repeat (destruct Hi as [Hi|Hi]); repeat (destruct Hj as [Hj|Hj]);
    try contradiction; subst; simpl; intros H;
    solve [reflexivity | discriminate H].
Qed.

(** X18. In the admin sidebar, for every path: the links are those of
    [NAV_ITEMS] in order, with keys that are all different; a link has
    the highlighted class exactly when its target is the path itself
    (strict equality: a path below a target, or with a trailing slash,
    highlights nothing); so at most one link is highlighted, and none when
    the path is not one of the four targets. *)
Theorem admin_nav_highlights_current (pathname : string) :
  let links := AdminLayout_nav pathname in
  let highlighted := admin_link_base +:+ admin_link_active in
  map link_href links = map href NAV_ITEMS
  /\ NoDup (map key links)
  /\ (forall l, l ∈ links ->
                (className l = highlighted <-> link_href l = pathname)
                /\ (className l = highlighted
                    \/ className l = admin_link_base +:+ admin_link_inactive))
  /\ (forall l1 l2, l1 ∈ links -> l2 ∈ links ->
                    className l1 = highlighted ->
                    className l2 = highlighted -> l1 = l2)
  /\ (pathname ∉ map href NAV_ITEMS ->
      forall l, l ∈ links -> className l <> highlighted).
Proof.
  intros links highlighted. subst links highlighted.
  unfold AdminLayout_nav.
  split; [reflexivity|]. split.
  { simpl. repeat (constructor; [rewrite ?elem_of_cons, elem_of_nil;
                                 intros H; intuition discriminate|]).
    constructor. }
  split; [|split].
  - intros l Hl. apply list_elem_of_fmap in Hl as (item & -> & _).
    split; [apply admin_link_class|].
    unfold admin_link. simpl. destruct (String.eqb _ _); auto.
  - intros l1 l2 H1 H2 Hc1 Hc2.
    apply list_elem_of_fmap in H1 as (i1 & -> & Hi1).
    apply list_elem_of_fmap in H2 as (i2 & -> & Hi2).
    apply admin_link_class in Hc1, Hc2.
    f_equal. apply NAV_ITEMS_href_inj; congruence.
  - intros Hnot l Hl Hc.
    apply list_elem_of_fmap in Hl as (item & -> & Hitem).
    apply admin_link_class in Hc. apply Hnot. rewrite <- Hc.
    apply list_elem_of_fmap. eauto.
Qed.

(** X19. In the organization sidebar, for every path: the links are
    those of [ORG_NAV] in order, with keys that are all different; a link
    has the highlighted class, and its icon the highlighted colour,
    exactly when its target is the path itself; so at most one link is
    highlighted, and none when the path is not one of the four
    targets. *)
Theorem org_nav_highlights_current (pathname : string) :
  let links := OrganizationLayout_nav pathname in
  let highlighted := org_link_base +:+ org_link_active in
  map link_href links = map href ORG_NAV
  /\ NoDup (map key links)
  /\ (forall l, l ∈ links ->
                (className l = highlighted <-> link_href l = pathname)
                /\ (icon_className l = "h-4 w-4 text-blue-600"
                    <-> link_href l = pathname))
  /\ (forall l1 l2, l1 ∈ links -> l2 ∈ links ->
                    className l1 = highlighted ->
                    className l2 = highlighted -> l1 = l2)
  /\ (pathname ∉ map href ORG_NAV ->
      forall l, l ∈ links -> className l <> highlighted).
Proof.
  intros links highlighted. subst links highlighted.
  unfold OrganizationLayout_nav.
  split; [reflexivity|]. split.
  { simpl. repeat (constructor; [rewrite ?elem_of_cons, elem_of_nil;
                                 intros H; intuition discriminate|]).
    constructor. }
  split; [|split].
  - intros l Hl. apply list_elem_of_fmap in Hl as (item & -> & _).
    split; [apply org_link_class|].
    unfold org_link. simpl.
    destruct (String.eqb_spec pathname (href item)) as [->|Hne];
      split; solve [reflexivity | discriminate | congruence].
  - intros l1 l2 H1 H2 Hc1 Hc2.
    apply list_elem_of_fmap in H1 as (i1 & -> & Hi1).
    apply list_elem_of_fmap in H2 as (i2 & -> & Hi2).
    apply org_link_class in Hc1, Hc2.
    f_equal. apply ORG_NAV_href_inj; congruence.
  - intros Hnot l Hl Hc.
    apply list_elem_of_fmap in Hl as (item & -> & Hitem).
    apply org_link_class in Hc. apply Hnot. rewrite <- Hc.
    apply list_elem_of_fmap. eauto.
Qed.

Lemma admin_nav_highlights_current_witness :
  map className (AdminLayout_nav "/admin/doctors")
  = [ admin_link_base +:+ admin_link_inactive;
      admin_link_base +:+ admin_link_active;
      admin_link_base +:+ admin_link_inactive;
      admin_link_base +:+ admin_link_inactive ]
  /\ forall l, l ∈ AdminLayout_nav "/admin/doctors/42" ->
               className l <> admin_link_base +:+ admin_link_active.
Proof.
  split; [reflexivity|].
  destruct (admin_nav_highlights_current "/admin/doctors/42")
    as (_ & _ & _ & _ & Hnone).
  apply Hnone. simpl. rewrite !elem_of_cons, elem_of_nil.
  intros H. repeat (destruct H as [H|H]; [discriminate H|]). exact H.
Defined.

Lemma org_nav_highlights_current_witness :
  map icon_className (OrganizationLayout_nav "/organization/profile")
  = [ "h-4 w-4 text-gray-400"; "h-4 w-4 text-blue-600";
      "h-4 w-4 text-gray-400"; "h-4 w-4 text-gray-400" ]
  /\ forall l, l ∈ OrganizationLayout_nav "/organization/profile/" ->
               className l <> org_link_base +:+ org_link_active.
Proof.
  split; [reflexivity|].
  destruct (org_nav_highlights_current "/organization/profile/")
    as (_ & _ & _ & _ & Hnone).
  apply Hnone. simpl. rewrite !elem_of_cons, elem_of_nil.
  intros H. repeat (destruct H as [H|H]; [discriminate H|]). exact H.
Defined.

Lemma sidebar_after_even (n : nat) : sidebar_after n = Nat.even n.
Proof.
  unfold sidebar_after. induction n as [|n IH]; [reflexivity|].
  rewrite Nat.iter_succ, IH. unfold toggle_sidebar.
  now rewrite Nat.even_succ, Nat.negb_even.
Qed.

(** X20. The sidebar of the organization layout starts open, and after
    the toggle was clicked [n] times it is open exactly when [n] is even:
    then the panel is translated in and the toggle shows the closing
    icon; otherwise the panel is translated out (below the large
    breakpoint) and the toggle shows the menu icon. *)
Theorem sidebar_open_iff_even (n : nat) :
  sidebar_after n = Nat.even n
  /\ sidebar_transform (sidebar_after n)
     = (if Nat.even n then "translate-x-0"
        else "-translate-x-full lg:translate-x-0")
  /\ toggle_icon (sidebar_after n)
     = (if Nat.even n then IconX else IconMenu)
  /\ sidebar_after (S (S n)) = sidebar_after n.
Proof.
  rewrite !sidebar_after_even. repeat split.
Qed.

End LayoutsFacts.
